(** * godis: an in-memory key-value store behind one HTTP endpoint

    A shallow embedding of [src/database/database.go], [src/types.go],
    [src/handlers.go] and the request handler registered by [listen] in
    [main.go], followed by the properties of the store and of the
    dispatcher.

    Conventions of the embedding:
    - a Go [string] is a [string]; a [[]byte] written to the response is the
      string with the same bytes;
    - a Go [error] is [option errors.errorString]: [None] is [nil];
    - a Go [map[string]string] is [option (gmap string string)]: [None] is the
      nil map, which reads as empty and panics on assignment;
    - a call that may panic or block returns an [outcome]. *)

From stdpp Require Import base strings gmap list.
From Stdlib Require Import NArith Ascii.

Set Warnings "-register-all".

(** ** Results of a Go call *)

Inductive outcome (A : Type) : Type :=
| Returns (a : A)          (* the call returns normally *)
| Panics (msg : string)    (* a run-time panic unwinds the call *)
| Blocks.                  (* the goroutine waits for ever *)

Arguments Returns {A} a.
Arguments Panics {A} msg.
Arguments Blocks {A}.

#[export] Instance outcome_ret : MRet outcome := fun A a => Returns a.

#[export] Instance outcome_bind : MBind outcome := fun A B k c =>
  match c with
  | Returns a => k a
  | Panics msg => Panics msg
  | Blocks => Blocks
  end.

(** ** Package [errors] *)

Module errors.

(** [errors.New] allocates an [*errorString]; its only field is the
    unexported text [s]. Two errors are told apart here by their text. *)
Record errorString : Type := mk_errorString { s : string }.

Definition New (text : string) : errorString := mk_errorString text.

(** The [Error()] method of the [error] interface. *)
Definition Error (e : errorString) : string := s e.

End errors.

Abbreviation error := (option errors.errorString).

(** ** Package [sync] *)

Module sync.

(** A [sync.Mutex]; its zero value is unlocked. *)
Record Mutex : Type := mk_Mutex { locked : bool }.

Definition zeroMutex : Mutex := mk_Mutex false.

(** [Lock] returns once it holds the mutex; [None]: the mutex is held, the
    caller has to wait. *)
Definition Lock (m : Mutex) : option Mutex :=
  if locked m then None else Some (mk_Mutex true).

(** [Unlock] of a mutex that is not locked is a fatal error ([None]). *)
Definition Unlock (m : Mutex) : option Mutex :=
  if locked m then Some (mk_Mutex false) else None.

End sync.

(** ** Package [database] *)

Module database.

Record MapDatabase : Type := mk_MapDatabase {
  hashtableMutex : sync.Mutex;
  hashtable : option (gmap string string)
}.

(** [v, ok := m[key]]: a nil map reads like an empty one. *)
Definition map_index (m : option (gmap string string)) (key : string)
  : string * bool :=
  match m with
  | Some h =>
      match h !! key with
      | Some v => (v, true)
      | None => ("", false)
      end
  | None => ("", false)
  end.

(** [m[key] = value]: [None] is the panic of an assignment to a nil map. *)
Definition map_assign (m : option (gmap string string)) (key value : string)
  : option (gmap string string) :=
  match m with
  | Some h => Some (<[key := value]> h)
  | None => None
  end.

(** [func (db MapDatabase) Get(key string) (string, error)] *)
Definition MapDatabase_Get (db : MapDatabase) (key : string) : string * error :=
  let '(v, ok) := map_index (hashtable db) key in
  if negb ok then ("", Some (errors.New "this value doesn't exist"))
  else (v, None).

(** [func (db *MapDatabase) Set(key, value string) error]; the second
    component is the struct [db] points to when the call returns. The
    deferred [Unlock] runs on every exit; the store a panic leaves behind is
    not kept here, the goroutines below keep it. *)
Definition MapDatabase_Set (db : MapDatabase) (key value : string)
  : outcome (error * MapDatabase) :=
  match sync.Lock (hashtableMutex db) with
  | None => Blocks
  | Some mu =>
      match map_assign (hashtable db) key value with
      | None => Panics "assignment to entry in nil map"
      | Some h =>
          match sync.Unlock mu with
          | None => Panics "sync: unlock of unlocked mutex"
          | Some mu' => Returns (None, mk_MapDatabase mu' (Some h))
          end
      end
  end.

(** [func NewMapDatabase() MapDatabase] *)
Definition NewMapDatabase : MapDatabase :=
  mk_MapDatabase sync.zeroMutex (Some ∅).

(** The zero value [MapDatabase{}], whose [hashtable] is the nil map. *)
Definition zeroMapDatabase : MapDatabase := mk_MapDatabase sync.zeroMutex None.

(** [type Database interface { Get; Set }]. An implementation is reached
    through a pointer, so both methods may change the value behind it: each
    returns the value it leaves there. The errors an implementation returns
    are values of [errors.New], as those of [MapDatabase] are. *)
Class Database (D : Type) : Type := {
  Database_Get : D -> string -> outcome (string * error * D);
  Database_Set : D -> string -> string -> outcome (error * D)
}.

(** [*MapDatabase] implements [Database]. [Get] has a value receiver: it
    works on a copy of the struct and assigns nothing. *)
#[export] Instance MapDatabase_Database : Database MapDatabase := {
  Database_Get db key := Returns (MapDatabase_Get db key, db);
  Database_Set db key value := MapDatabase_Set db key value
}.

(** The association of a key in the store, if any. *)
Definition lookup_key (db : MapDatabase) (key : string) : option string :=
  match hashtable db with
  | Some h => h !! key
  | None => None
  end.

(** A store on which a call can start: nobody holds the mutex and the map
    has been made. *)
Definition initialised (db : MapDatabase) : bool :=
  match hashtable db with
  | Some _ => negb (sync.locked (hashtableMutex db))
  | None => false
  end.

(** Sequences of store calls, one after the other. *)
Inductive op : Type :=
| OpGet (key : string)
| OpSet (key value : string).

Definition exec (o : op) (db : MapDatabase) : outcome MapDatabase :=
  match o with
  | OpGet key => '(_, db') ← Database_Get db key; Returns db'
  | OpSet key value => '(_, db') ← Database_Set db key value; Returns db'
  end.

Fixpoint run (ops : list op) (db : MapDatabase) : outcome MapDatabase :=
  match ops with
  | [] => Returns db
  | o :: ops' => db' ← exec o db; run ops' db'
  end.

(** A [Database] that delegates to another one and keeps the list of the
    calls it received: it tells whether a handler called the store. *)
Record Recorder (D : Type) : Type := mk_Recorder {
  delegate : D;
  received : list op
}.

Arguments mk_Recorder {D} delegate received.
Arguments delegate {D} r.
Arguments received {D} r.

#[export] Instance Recorder_Database {D : Type} `{Database D}
  : Database (Recorder D) := {
  Database_Get r key :=
    '(res, d) ← Database_Get (delegate r) key;
    Returns (res, mk_Recorder d (received r ++ [OpGet key]));
  Database_Set r key value :=
    '(err, d) ← Database_Set (delegate r) key value;
    Returns (err, mk_Recorder d (received r ++ [OpSet key value]))
}.

End database.

Import database.

(** ** The store in memory

    [MapDatabase_Get] and [MapDatabase_Set] above take the store and hand it
    back. In Go the struct sits in memory behind the pointer the handlers
    hold, and its [hashtable] field refers to a map that sits in memory too;
    a method with a value receiver works on a copy of the struct, and the
    copy refers to the same map. Here both methods are written statement by
    statement over that memory, so that what a method does to it is read off
    its body. *)

Module memory.

Definition ref : Type := positive.

Record MapDatabase : Type := mk_MapDatabase {
  hashtableMutex : sync.Mutex;
  hashtable : option ref          (* [None]: the nil map *)
}.

Record memory : Type := mk_memory {
  structs : gmap ref MapDatabase;
  maps : gmap ref (gmap string string)
}.

(** A statement or call: from the memory it starts in to its result and the
    memory it leaves. *)
Definition Go (A : Type) : Type := memory -> outcome (A * memory).

#[export] Instance Go_ret : MRet Go := fun A a mem => Returns (a, mem).

#[export] Instance Go_bind : MBind Go := fun A B k c mem =>
  match c mem with
  | Returns (a, mem') => k a mem'
  | Panics msg => Panics msg
  | Blocks => Blocks
  end.

(** [*p] *)
Definition load (p : ref) : Go MapDatabase := fun mem =>
  match structs mem !! p with
  | Some db => Returns (db, mem)
  | None => Panics "invalid memory address or nil pointer dereference"
  end.

(** The map a map value refers to; the nil map refers to none. *)
Definition map_at (mem : memory) (m : option ref) : option (gmap string string) :=
  match m with
  | Some r => maps mem !! r
  | None => None
  end.

(** [v, ok := m[key]] *)
Definition map_index (m : option ref) (key : string) : Go (string * bool) :=
  fun mem => Returns (database.map_index (map_at mem m) key, mem).

(** [m[key] = value] *)
Definition map_assign (m : option ref) (key value : string) : Go unit :=
  fun mem =>
    match m with
    | Some r =>
        match maps mem !! r with
        | Some h =>
            Returns (tt, mk_memory (structs mem)
                           (<[r := <[key := value]> h]> (maps mem)))
        | None => Panics "assignment to entry in nil map"
        end
    | None => Panics "assignment to entry in nil map"
    end.

(** [p.hashtableMutex.Lock()] *)
Definition Mutex_Lock (p : ref) : Go unit := fun mem =>
  match structs mem !! p with
  | Some db =>
      match sync.Lock (hashtableMutex db) with
      | Some mu =>
          Returns (tt, mk_memory (<[p := mk_MapDatabase mu (hashtable db)]>
                                    (structs mem)) (maps mem))
      | None => Blocks
      end
  | None => Panics "invalid memory address or nil pointer dereference"
  end.

(** [p.hashtableMutex.Unlock()] *)
Definition Mutex_Unlock (p : ref) : Go unit := fun mem =>
  match structs mem !! p with
  | Some db =>
      match sync.Unlock (hashtableMutex db) with
      | Some mu =>
          Returns (tt, mk_memory (<[p := mk_MapDatabase mu (hashtable db)]>
                                    (structs mem)) (maps mem))
      | None => Panics "sync: unlock of unlocked mutex"
      end
  | None => Panics "invalid memory address or nil pointer dereference"
  end.

(** [defer d] before [body]: [d] runs when [body] is done. The memory a panic
    leaves is not kept. *)
Definition deferring {A : Type} (d : Go unit) (body : Go A) : Go A :=
  a ← body; _ ← d; mret a.

(** [func (db MapDatabase) Get(key string) (string, error)]: [db] is the
    receiver, a copy of the struct. *)
Definition MapDatabase_Get (db : MapDatabase) (key : string) : Go (string * error) :=
  '(v, ok) ← map_index (hashtable db) key;
  if negb ok then mret ("", Some (errors.New "this value doesn't exist"))
  else mret (v, None).

(** [db.Get(key)] on the [Database] that holds the pointer [p]: the method
    has a value receiver, so the call copies [*p]. *)
Definition Database_Get (p : ref) (key : string) : Go (string * error) :=
  db ← load p; MapDatabase_Get db key.

(** [func (db *MapDatabase) Set(key, value string) error] *)
Definition MapDatabase_Set (p : ref) (key value : string) : Go error :=
  _ ← Mutex_Lock p;
  deferring (Mutex_Unlock p)
    (db ← load p;
     _ ← map_assign (hashtable db) key value;
     mret None).

(** [func NewMapDatabase() MapDatabase]: the map literal makes a new map. *)
Definition NewMapDatabase : Go MapDatabase := fun mem =>
  let r := fresh (dom (maps mem)) in
  Returns (mk_MapDatabase sync.zeroMutex (Some r),
           mk_memory (structs mem) (<[r := ∅]> (maps mem))).

(** [&db] for a variable [db]: the struct is in memory, behind the pointer. *)
Definition address_of (db : MapDatabase) : Go ref := fun mem =>
  let p := fresh (dom (structs mem)) in
  Returns (p, mk_memory (<[p := db]> (structs mem)) (maps mem)).

(** [db := database.NewMapDatabase()] and [&db], as in [main]. *)
Definition main_store : Go ref :=
  db ← NewMapDatabase; address_of db.

(** The store behind a pointer, as [database.MapDatabase] has it: the struct
    with the map its [hashtable] refers to in place of the reference. *)
Definition view (mem : memory) (p : ref) : option database.MapDatabase :=
  match structs mem !! p with
  | Some db =>
      match hashtable db with
      | Some r =>
          match maps mem !! r with
          | Some h => Some (database.mk_MapDatabase (hashtableMutex db) (Some h))
          | None => None
          end
      | None => Some (database.mk_MapDatabase (hashtableMutex db) None)
      end
  | None => None
  end.

(** Memory with nothing in it. *)
Definition empty : memory := mk_memory ∅ ∅.

End memory.

(** ** Package [encoding/json], as far as [Response] goes *)

Module json.

(** The JSON document that the bytes returned by [Marshal] spell. A
    [JString] stands for the JSON string that spells [text]; which characters
    the encoder writes as escapes is left out. *)
Inductive value : Type :=
| JString (text : string)
| JNumber (n : N)
| JObject (members : list (string * value)).

(** What [[]byte] data written to a response holds: plain text, or the
    encoding of a JSON document. *)
Inductive bytes : Type :=
| Text (text : string)
| Encoded (j : value).

(** How the encoder reads the first byte of a character in UTF-8: a byte
    that stands alone, the lead of two, three or four bytes with the range
    its second byte must lie in, or a byte that begins nothing. *)
Inductive utf8_size : Type := Two | Three | Four.

Inductive utf8_first_byte : Type :=
| Single
| Lead (size : utf8_size) (lo hi : N)
| Invalid.

Definition byte_in (lo hi : N) (c : ascii) : bool :=
  ((lo <=? N_of_ascii c) && (N_of_ascii c <=? hi))%N.

Definition utf8_first (c : ascii) : utf8_first_byte :=
  let n := N_of_ascii c in
  if (n <? 128)%N then Single
  else if (n <? 194)%N then Invalid
  else if (n <? 224)%N then Lead Two 128 191
  else if (n =? 224)%N then Lead Three 160 191
  else if (n =? 237)%N then Lead Three 128 159
  else if (n <? 240)%N then Lead Three 128 191
  else if (n =? 240)%N then Lead Four 144 191
  else if (n <? 244)%N then Lead Four 128 191
  else if (n =? 244)%N then Lead Four 128 143
  else Invalid.

(** U+FFFD in UTF-8. *)
Definition replacement : string :=
  String (ascii_of_N 239) (String (ascii_of_N 191) (String (ascii_of_N 189) "")).

(** The text that the JSON string written for a Go string spells: the string
    itself, except that every byte which is not part of a well-formed UTF-8
    character is replaced by U+FFFD, one replacement per byte. *)
Fixpoint valid_text (s : string) : string :=
  match s with
  | EmptyString => EmptyString
  | String c0 s0 =>
      match utf8_first c0 with
      | Single => String c0 (valid_text s0)
      | Invalid => replacement +:+ valid_text s0
      | Lead size lo hi =>
          match s0 with
          | EmptyString => replacement
          | String c1 s1 =>
              if byte_in lo hi c1 then
                match size with
                | Two => String c0 (String c1 (valid_text s1))
                | Three =>
                    match s1 with
                    | EmptyString => replacement +:+ valid_text s0
                    | String c2 s2 =>
                        if byte_in 128 191 c2
                        then String c0 (String c1 (String c2 (valid_text s2)))
                        else replacement +:+ valid_text s0
                    end
                | Four =>
                    match s1 with
                    | EmptyString => replacement +:+ valid_text s0
                    | String c2 s2 =>
                        if byte_in 128 191 c2 then
                          match s2 with
                          | EmptyString => replacement +:+ valid_text s0
                          | String c3 s3 =>
                              if byte_in 128 191 c3
                              then String c0 (String c1 (String c2
                                     (String c3 (valid_text s3))))
                              else replacement +:+ valid_text s0
                          end
                        else replacement +:+ valid_text s0
                    end
                end
              else replacement +:+ valid_text s0
          end
      end
  end.

(** Every byte of the string is below 128. *)
Fixpoint is_ascii (s : string) : bool :=
  match s with
  | EmptyString => true
  | String c s' => (N_of_ascii c <? 128)%N && is_ascii s'
  end.

(** The encoding of a non-nil [error] held in an interface-typed field. The
    encoder encodes the concrete value the interface holds; [errors.New]
    gives an [*errorString], a struct with the single unexported field [s]
    and no [MarshalJSON] or [MarshalText] method, and unexported fields are
    not encoded: the result is the empty object, whatever the text. *)
Definition marshal_error (e : errors.errorString) : value := JObject [].

(** The first member under a name in a list of members. *)
Fixpoint assoc (name : string) (members : list (string * value)) : option value :=
  match members with
  | [] => None
  | (n, v) :: members' => if decide (n = name) then Some v else assoc name members'
  end.

(** The member of an object under a name, if [j] is an object that has one. *)
Definition member (name : string) (j : value) : option value :=
  match j with
  | JObject members => assoc name members
  | _ => None
  end.

End json.

(** ** Package [net/http]: what a handler does to its [ResponseWriter] *)

Module http.

Inductive call : Type :=
| CallWriteHeader (statusCode : N)
| CallWrite (data : json.bytes).

(** A response writer is the list of the calls it received, oldest first. *)
Definition ResponseWriter : Type := list call.

Definition WriteHeader (w : ResponseWriter) (statusCode : N) : ResponseWriter :=
  w ++ [CallWriteHeader statusCode].

Definition Write (w : ResponseWriter) (data : json.bytes) : ResponseWriter :=
  w ++ [CallWrite data].

(** The status line sent: that of the first [WriteHeader], unless a [Write]
    came first (or nothing was called), which sends 200. *)
Definition statusCode (w : ResponseWriter) : N :=
  match w with
  | CallWriteHeader c :: _ => c
  | _ => 200%N
  end.

(** The body sent: the data of the [Write] calls, in order. *)
Fixpoint body (w : ResponseWriter) : list json.bytes :=
  match w with
  | [] => []
  | CallWriteHeader _ :: w' => body w'
  | CallWrite data :: w' => data :: body w'
  end.

End http.

(** ** Package [main]: [types.go], [handlers.go] and the handler of [listen] *)

Module main.

Record Request : Type := mk_Request {
  Request_Op : string;
  Request_Key : string;
  Request_Value : string
}.

Record Response : Type := mk_Response {
  Response_Error : error;      (* `json:",omitempty"` *)
  Response_Status : N;         (* uint *)
  Response_Value : string      (* `json:",omitempty"` *)
}.

(** [json.Marshal(rsp)] for [rsp] of type [Response]: the exported fields in
    the order of the struct, under their Go names; [omitempty] leaves out a
    nil interface and an empty string; a string is written as the JSON string
    that spells its [json.valid_text]. The errors of this development are the
    values of [errors.New], the only ones the repository makes ([Get] of
    [MapDatabase]); with them no [Response] makes the encoder fail, so the
    error returned is [nil]. *)
Definition json_Marshal (rsp : Response) : json.bytes * error :=
  (json.Encoded (json.JObject (
     match Response_Error rsp with
     | Some e => [("Error", json.marshal_error e)]
     | None => []
     end
     ++ [("Status", json.JNumber (Response_Status rsp))]
     ++ (if decide (Response_Value rsp = "") then []
         else [("Value", json.JString (json.valid_text (Response_Value rsp)))]))),
   None).

(** The [Response] that [handleGet] builds from the result of [db.Get]. *)
Definition getResponse (value : string) (err : error) : Response :=
  match err with
  | Some _ => {| Response_Error := err; Response_Status := 500;
                 Response_Value := "" |}
  | None => {| Response_Error := None; Response_Status := 200;
               Response_Value := value |}
  end.

(** [func handleGet(reqBody Request, w http.ResponseWriter, db database.Database)] *)
Definition handleGet {D : Type} `{Database D}
    (reqBody : Request) (w : http.ResponseWriter) (db : D)
  : outcome (http.ResponseWriter * D) :=
  '(value, err, db) ← Database_Get db (Request_Key reqBody);
  let rsp := getResponse value err in
  let '(jsonBytes, err) := json_Marshal rsp in
  match err with
  | Some e =>
      Returns (http.Write (http.WriteHeader w 500) (json.Text (errors.Error e)), db)
  | None => Returns (http.Write w jsonBytes, db)
  end.

(** [func handleSet(reqBody Request, w http.ResponseWriter, db database.Database)] *)
Definition handleSet {D : Type} `{Database D}
    (reqBody : Request) (w : http.ResponseWriter) (db : D)
  : outcome (http.ResponseWriter * D) :=
  '(err, db) ← Database_Set db (Request_Key reqBody) (Request_Value reqBody);
  match err with
  | Some e =>
      Returns (http.Write (http.WriteHeader w 500) (json.Text (errors.Error e)), db)
  | None =>
      let rsp := {| Response_Error := None; Response_Status := 200;
                    Response_Value := "" |} in
      let '(jsonBytes, err) := json_Marshal rsp in
      match err with
      | Some e =>
          Returns (http.Write (http.WriteHeader w 500)
                     (json.Text (errors.Error e)), db)
      | None => Returns (http.Write w jsonBytes, db)
      end
  end.

(** The function that [listen] registers for ["/"]. [decoded] is what
    [decoder.Decode(&reqBody)] leaves: the request body read into [reqBody],
    and the error it returns. *)
Definition handler {D : Type} `{Database D}
    (decoded : Request * error) (w : http.ResponseWriter) (db : D)
  : outcome (http.ResponseWriter * D) :=
  let '(reqBody, err) := decoded in
  match err with
  | Some e =>
      Returns (http.Write (http.WriteHeader w 400) (json.Text (errors.Error e)), db)
  | None =>
      if decide (Request_Op reqBody = "GET") then handleGet reqBody w db
      else if decide (Request_Op reqBody = "SET") then handleSet reqBody w db
      else
        Returns (http.Write (http.WriteHeader w 500)
                   (json.Text ("Unrecognised op: " +:+ Request_Op reqBody)), db)
  end.

End main.

Import main.

(** ** Goroutines: store calls of requests served at the same time

    [net/http] serves every request in a goroutine of its own, all on the
    store [main] made. A goroutine runs one call of [Set] or [Get]; a step of
    the system is one step of one goroutine. *)

Module goroutines.

(** Where a goroutine stands in the call it runs. *)
Inductive goroutine : Type :=
| SetAtLock (key value : string)     (* before [db.hashtableMutex.Lock()] *)
| SetAtAssign (key value : string)   (* before [db.hashtable[key] = value] *)
| SetAtReturn                        (* before [return nil], [Unlock] deferred *)
| SetAtPanic (msg : string)          (* panicking, [Unlock] deferred *)
| SetReturned (err : error)
| SetPanicked (msg : string)
| GetAtIndex (key : string)          (* before [v, ok := db.hashtable[key]] *)
| GetReturned (v : string) (err : error).

(** The goroutine is between [Lock] and [Unlock]: in the critical section of
    [Set]. *)
Definition holds_mutex (g : goroutine) : bool :=
  match g with
  | SetAtAssign _ _ | SetAtReturn | SetAtPanic _ => true
  | _ => false
  end.

(** The goroutine has not begun its call. *)
Definition at_entry (g : goroutine) : bool :=
  match g with
  | SetAtLock _ _ | GetAtIndex _ => true
  | _ => false
  end.

(** One step of a goroutine on the store; [None]: it cannot move (it waits
    for the mutex, or it is done). *)
Definition step_goroutine (db : MapDatabase) (g : goroutine)
  : option (MapDatabase * goroutine) :=
  match g with
  | SetAtLock key value =>
      mu ← sync.Lock (hashtableMutex db);
      Some (mk_MapDatabase mu (hashtable db), SetAtAssign key value)
  | SetAtAssign key value =>
      match map_assign (hashtable db) key value with
      | Some h => Some (mk_MapDatabase (hashtableMutex db) (Some h), SetAtReturn)
      | None => Some (db, SetAtPanic "assignment to entry in nil map")
      end
  | SetAtReturn =>
      mu ← sync.Unlock (hashtableMutex db);
      Some (mk_MapDatabase mu (hashtable db), SetReturned None)
  | SetAtPanic msg =>
      mu ← sync.Unlock (hashtableMutex db);
      Some (mk_MapDatabase mu (hashtable db), SetPanicked msg)
  | GetAtIndex key =>
      let '(v, err) := MapDatabase_Get db key in
      Some (db, GetReturned v err)
  | SetReturned _ | SetPanicked _ | GetReturned _ _ => None
  end.

Record system : Type := mk_system {
  store : MapDatabase;
  running : list goroutine
}.

(** Goroutine [i] takes a step. *)
Definition step_at (i : nat) (σ : system) : option system :=
  g ← running σ !! i;
  '(db, g') ← step_goroutine (store σ) g;
  Some (mk_system db (<[i := g']> (running σ))).

Definition step (σ σ' : system) : Prop :=
  exists i : nat, step_at i σ = Some σ'.

(** The store is ready and no goroutine has begun. *)
Definition initial (σ : system) : Prop :=
  initialised (store σ) = true /\ Forall (fun g => at_entry g = true) (running σ).

(** The goroutine is unwinding the panic of an assignment to a nil map, or
    has ended on it. *)
Definition panicking (g : goroutine) : bool :=
  match g with
  | SetAtPanic _ | SetPanicked _ => true
  | _ => false
  end.

(** How many goroutines are in the critical section. *)
Definition holders (gs : list goroutine) : nat :=
  length (filter (fun g => holds_mutex g = true) gs).

Definition weight (g : goroutine) : nat := if holds_mutex g then 1 else 0.

(** The mutex is locked exactly when one goroutine is in the critical
    section, the map stays made, and no goroutine panics. *)
Definition mutex_inv (σ : system) : Prop :=
  holders (running σ)
  = (if sync.locked (hashtableMutex (store σ)) then 1 else 0) /\
  is_Some (hashtable (store σ)) /\
  Forall (fun g => panicking g = false) (running σ).

(** Goroutine [j] reads the map while another goroutine [i] is in the
    critical section of [Set]: the step of [j] from [σ] is its map read. *)
Definition reads_inside_critical_section (σ : system) (i j : nat) : Prop :=
  i <> j /\
  (exists g, running σ !! i = Some g /\ holds_mutex g = true) /\
  (exists key, running σ !! j = Some (GetAtIndex key)) /\
  is_Some (step_at j σ).

End goroutines.

Import goroutines.

(** [sub] occurs in [text]. *)
Definition contains (text sub : string) : Prop :=
  exists pre post : string, text = pre +:+ sub +:+ post.

(** ** Sequences of calls and of requests *)

(** The value of the last [OpSet] on [key] in a sequence of calls, if the
    sequence has one. *)
Fixpoint last_set (ops : list op) (key : string) : option string :=
  match ops with
  | [] => None
  | o :: ops' =>
      match last_set ops' key with
      | Some v => Some v
      | None =>
          match o with
          | OpSet k v => if decide (k = key) then Some v else None
          | OpGet _ => None
          end
      end
  end.

(** The store call that the handler of [listen] makes for what the decoder
    left: none for a body that did not decode or for an unknown [Op]. *)
Definition calls_of (decoded : Request * error) : list op :=
  let '(reqBody, err) := decoded in
  match err with
  | Some _ => []
  | None =>
      if decide (Request_Op reqBody = "GET") then [OpGet (Request_Key reqBody)]
      else if decide (Request_Op reqBody = "SET")
      then [OpSet (Request_Key reqBody) (Request_Value reqBody)]
      else []
  end.

(** Requests served one after the other on one store, each with a response
    writer of its own: the responses, in order, and the store left. *)
Fixpoint serve {D : Type} `{Database D}
    (requests : list (Request * error)) (db : D)
  : outcome (list http.ResponseWriter * D) :=
  match requests with
  | [] => Returns ([], db)
  | decoded :: requests' =>
      '(w, db1) ← handler decoded [] db;
      '(ws, db2) ← serve requests' db1;
      Returns (w :: ws, db2)
  end.

(** The store a handler leaves, without what it wrote. *)
Definition store_left {W D : Type} (c : outcome (W * D)) : outcome D :=
  '(_, db) ← c; Returns db.

(** The status line a handler leaves, when it returns. *)
Definition status_left {D : Type} (c : outcome (http.ResponseWriter * D))
  : outcome N :=
  '(w, _) ← c; Returns (http.statusCode w).

(** ** The earlier [main.go] ([src/unnamed/part_000])

    The file declares [Request], [Response] and both handlers inside the
    function it registers. Its [Request] has the fields of the one in
    [types.go], which stands for it here; its [Response] has unexported
    fields. *)

Module main_part_000.

Record Response : Type := mk_Response {
  Response_error : error;
  Response_status : N;         (* uint *)
  Response_value : string
}.

(** [json.Marshal(rsp)] for this [Response]: the encoder leaves unexported
    fields out, and the struct has no other, so the result is the empty
    object whatever [rsp] holds. *)
Definition json_Marshal (rsp : Response) : json.bytes * error :=
  (json.Encoded (json.JObject []), None).

(** [var handleGet = func(reqBody Request, w http.ResponseWriter, db database.Database)] *)
Definition handleGet {D : Type} `{Database D}
    (reqBody : Request) (w : http.ResponseWriter) (db : D)
  : outcome (http.ResponseWriter * D) :=
  '(value, err, db) ← Database_Get db (Request_Key reqBody);
  let rsp :=
    match err with
    | Some _ => {| Response_error := err; Response_status := 500;
                   Response_value := "" |}
    | None => {| Response_error := None; Response_status := 200;
                 Response_value := value |}
    end in
  let '(jsonBytes, err) := json_Marshal rsp in
  match err with
  | Some e =>
      Returns (http.Write (http.WriteHeader w 500) (json.Text (errors.Error e)), db)
  | None => Returns (http.Write w jsonBytes, db)
  end.

(** [var handleSet = func(reqBody Request, w http.ResponseWriter, db database.Database)] *)
Definition handleSet {D : Type} `{Database D}
    (reqBody : Request) (w : http.ResponseWriter) (db : D)
  : outcome (http.ResponseWriter * D) :=
  '(err, db) ← Database_Set db (Request_Key reqBody) (Request_Value reqBody);
  match err with
  | Some e =>
      Returns (http.Write (http.WriteHeader w 500) (json.Text (errors.Error e)), db)
  | None =>
      let rsp := {| Response_error := None; Response_status := 200;
                    Response_value := "" |} in
      let '(jsonBytes, err) := json_Marshal rsp in
      match err with
      | Some e =>
          Returns (http.Write (http.WriteHeader w 500)
                     (json.Text (errors.Error e)), db)
      | None => Returns (http.Write w jsonBytes, db)
      end
  end.

(** The function this file registers for ["/"]. *)
Definition handler {D : Type} `{Database D}
    (decoded : Request * error) (w : http.ResponseWriter) (db : D)
  : outcome (http.ResponseWriter * D) :=
  let '(reqBody, err) := decoded in
  match err with
  | Some e =>
      Returns (http.Write (http.WriteHeader w 400) (json.Text (errors.Error e)), db)
  | None =>
      if decide (Request_Op reqBody = "GET") then handleGet reqBody w db
      else if decide (Request_Op reqBody = "SET") then handleSet reqBody w db
      else
        Returns (http.Write (http.WriteHeader w 500)
                   (json.Text ("Unrecognised Op: " +:+ Request_Op reqBody)), db)
  end.

End main_part_000.

(** ** Measures on goroutines *)

(** The goroutine has ended its call. *)
Definition finished (g : goroutine) : bool :=
  match g with
  | SetReturned _ | SetPanicked _ | GetReturned _ _ => true
  | _ => false
  end.

(** The steps a goroutine has left at most. *)
Definition steps_left (g : goroutine) : nat :=
  match g with
  | SetAtLock _ _ => 3
  | SetAtAssign _ _ => 2
  | SetAtReturn | SetAtPanic _ | GetAtIndex _ => 1
  | SetReturned _ | SetPanicked _ | GetReturned _ _ => 0
  end.

Definition steps_left_all (gs : list goroutine) : nat :=
  sum_list (steps_left <$> gs).

(** The goroutine runs [Set] and has not begun. *)
Definition is_Set_call (g : goroutine) : bool :=
  match g with
  | SetAtLock _ _ => true
  | _ => false
  end.

(** The assignment a goroutine has still to make. *)
Definition to_assign (g : goroutine) : option (string * string) :=
  match g with
  | SetAtLock key value | SetAtAssign key value => Some (key, value)
  | _ => None
  end.

Definition pending (gs : list goroutine) : list (string * string) :=
  omap to_assign gs.

(** The calls of [Set] for a list of keys and values. *)
Definition Set_calls (kvs : list (string * string)) : list op :=
  (fun kv => OpSet (fst kv) (snd kv)) <$> kvs.

(** The map after the assignments [m[k] = v] of a list, first to last. *)
Definition assign_all (h : gmap string string) (kvs : list (string * string))
  : gmap string string :=
  foldl (fun m kv => <[fst kv := snd kv]> m) h kvs.

(** * The store *)

Section store.

Implicit Types (db : MapDatabase) (k v : string).

Lemma initialised_inv db :
  initialised db = true ->
  exists h, db = mk_MapDatabase sync.zeroMutex (Some h).
Proof.
  destruct db as [[l] [h|]]; unfold initialised; simpl; [| discriminate].
  destruct l; [discriminate |]. intros _. exists h. reflexivity.
Qed.

Lemma Set_initialised db k v :
  initialised db = true ->
  exists h,
    hashtable db = Some h /\
    MapDatabase_Set db k v
    = Returns (None, mk_MapDatabase sync.zeroMutex (Some (<[k := v]> h))).
Proof.
  intros (h & ->)%initialised_inv. exists h. split; reflexivity.
Qed.

Lemma Set_keeps_initialised db k v err db' :
  initialised db = true ->
  MapDatabase_Set db k v = Returns (err, db') ->
  initialised db' = true.
Proof.
  intros Hdb HSet.
  destruct (Set_initialised db k v Hdb) as (h & _ & Heq).
  rewrite Heq in HSet. injection HSet as _ <-. reflexivity.
Qed.

(** [Get] answers with the association of the key, or with the error. *)
Lemma Get_lookup_key db k :
  MapDatabase_Get db k
  = match lookup_key db k with
    | Some v => (v, None)
    | None => ("", Some (errors.New "this value doesn't exist"))
    end.
Proof.
  unfold MapDatabase_Get, lookup_key, map_index.
  destruct (hashtable db) as [h|]; [| reflexivity].
  destruct (h !! k); reflexivity.
Qed.

Lemma Set_lookup_key db k v err db' k' :
  MapDatabase_Set db k v = Returns (err, db') ->
  lookup_key db' k' = if decide (k = k') then Some v else lookup_key db k'.
Proof.
  unfold MapDatabase_Set, lookup_key.
  destruct db as [[l] [h|]]; destruct l; simpl; try discriminate.
  intros [= _ <-]. simpl. apply lookup_insert.
Qed.

(** C1. On a store that is ready for a call, [Set(k, v)] returns [nil] and a
    [Get(k)] that follows returns [v] with a [nil] error, for every key and
    every value, the empty strings included. *)
Theorem Set_then_Get db k v :
  initialised db = true ->
  exists db',
    MapDatabase_Set db k v = Returns (None, db') /\
    MapDatabase_Get db' k = (v, None).
Proof.
  intros Hdb.
  destruct (Set_initialised db k v Hdb) as (h & _ & HSet).
  eexists. split; [exact HSet |].
  rewrite Get_lookup_key. unfold lookup_key. simpl.
  rewrite lookup_insert_eq. reflexivity.
Qed.

Lemma Set_then_Get_empty_strings :
  exists db',
    MapDatabase_Set NewMapDatabase "" "" = Returns (None, db') /\
    MapDatabase_Get db' "" = ("", None).
Proof. apply (Set_then_Get NewMapDatabase "" ""). reflexivity. Defined.

(** C3. [Get(k)] returns an error exactly when [k] has no association in the
    mapping (a nil map has none); the error is always the one made from the
    text "this value doesn't exist"; [Set], the only other call of the store,
    returns no error at all; and the text is none of the texts the dispatcher
    writes for an operation it does not know. *)
Theorem Get_error_iff_absent db k :
  (is_Some (snd (MapDatabase_Get db k)) <-> lookup_key db k = None) /\
  (forall e, snd (MapDatabase_Get db k) = Some e ->
             e = errors.New "this value doesn't exist") /\
  (forall v err db', MapDatabase_Set db k v = Returns (err, db') -> err = None) /\
  (forall o : string,
     errors.Error (errors.New "this value doesn't exist")
     <> "Unrecognised op: " +:+ o).
Proof.
  rewrite Get_lookup_key. repeat split.
  - destruct (lookup_key db k); simpl; [intros [e He]; discriminate | reflexivity].
  - intros ->. simpl. eexists. reflexivity.
  - destruct (lookup_key db k); simpl; intros e [= <-]. reflexivity.
  - intros v err db'. unfold MapDatabase_Set.
    destruct db as [[[|]] [h|]]; simpl; try discriminate.
    intros [= <- _]. reflexivity.
  - intros o. simpl. discriminate.
Qed.

(** C7. On a store that is ready for a call, [Set(k, v1)] then [Set(k, v2)]
    then [Get(k)] yields [v2]; the store is then the one that [Set(k, v2)]
    alone leaves. *)
Theorem Set_Set_then_Get db k v1 v2 :
  initialised db = true ->
  exists db1 db2,
    MapDatabase_Set db k v1 = Returns (None, db1) /\
    MapDatabase_Set db1 k v2 = Returns (None, db2) /\
    MapDatabase_Get db2 k = (v2, None) /\
    MapDatabase_Set db k v2 = Returns (None, db2).
Proof.
  intros Hdb.
  destruct (Set_initialised db k v1 Hdb) as (h & Hh & HSet1).
  destruct (Set_initialised db k v2 Hdb) as (h' & Hh' & HSet2).
  rewrite Hh in Hh'. injection Hh' as <-.
  eexists. exists (mk_MapDatabase sync.zeroMutex (Some (<[k := v2]> h))).
  split; [exact HSet1 |]. split; [| split; [| exact HSet2]].
  - unfold MapDatabase_Set. simpl. rewrite insert_insert_eq. reflexivity.
  - rewrite Get_lookup_key. unfold lookup_key. simpl.
    rewrite lookup_insert_eq. reflexivity.
Qed.

Lemma Set_Set_then_Get_example :
  exists db1 db2,
    MapDatabase_Set NewMapDatabase "foo" "bar" = Returns (None, db1) /\
    MapDatabase_Set db1 "foo" "baz" = Returns (None, db2) /\
    MapDatabase_Get db2 "foo" = ("baz", None) /\
    MapDatabase_Set NewMapDatabase "foo" "baz" = Returns (None, db2).
Proof. apply (Set_Set_then_Get NewMapDatabase "foo" "bar" "baz"). reflexivity. Defined.

(** C10. On a store that is ready for a call, [Set(k, v)] leaves every other
    key [k'] as it was: [Get(k')] returns the same value, or the same error,
    before and after. *)
Theorem Set_leaves_other_keys db k k' v :
  initialised db = true ->
  k <> k' ->
  exists db',
    MapDatabase_Set db k v = Returns (None, db') /\
    lookup_key db' k' = lookup_key db k' /\
    MapDatabase_Get db' k' = MapDatabase_Get db k'.
Proof.
  intros Hdb Hne.
  destruct (Set_initialised db k v Hdb) as (h & _ & HSet).
  eexists. split; [exact HSet |].
  assert (Hk : lookup_key (mk_MapDatabase sync.zeroMutex (Some (<[k := v]> h))) k'
               = lookup_key db k').
  { rewrite (Set_lookup_key _ _ _ _ _ k' HSet).
    destruct (decide (k = k')); [contradiction | reflexivity]. }
  split; [exact Hk |]. rewrite !Get_lookup_key, Hk. reflexivity.
Qed.

Lemma Set_leaves_other_keys_example :
  "foo" <> "baz" /\
  exists db',
    MapDatabase_Set NewMapDatabase "foo" "bar" = Returns (None, db') /\
    lookup_key db' "baz" = lookup_key NewMapDatabase "baz" /\
    MapDatabase_Get db' "baz" = MapDatabase_Get NewMapDatabase "baz".
Proof.
  assert (Hne : "foo" <> "baz") by discriminate.
  split; [exact Hne |].
  apply (Set_leaves_other_keys NewMapDatabase "foo" "baz" "bar");
    [reflexivity | exact Hne].
Defined.

End store.

Section store_invariant.

Implicit Types (db : MapDatabase) (k v : string).

Lemma exec_initialised db (o : op) :
  initialised db = true ->
  exists db', exec o db = Returns db' /\ initialised db' = true.
Proof.
  intros Hdb. destruct o as [key | key value]; simpl.
  - exists db. split; [reflexivity | exact Hdb].
  - destruct (Set_initialised db key value Hdb) as (h & _ & ->). simpl.
    eexists. split; reflexivity.
Qed.

Lemma run_initialised (ops : list op) db :
  initialised db = true ->
  exists db', run ops db = Returns db' /\ initialised db' = true.
Proof.
  revert db. induction ops as [| o ops IH]; intros db Hdb; simpl.
  - exists db. split; [reflexivity | exact Hdb].
  - destruct (exec_initialised db o Hdb) as (db1 & -> & Hdb1). simpl.
    apply IH, Hdb1.
Qed.

End store_invariant.

(** * Goroutines on one store *)

Section interleaving.

Implicit Types (σ : system) (gs : list goroutine) (g : goroutine).

Lemma holders_cons g gs : holders (g :: gs) = weight g + holders gs.
Proof.
  unfold holders, weight. rewrite filter_cons.
  destruct (holds_mutex g); simpl; reflexivity.
Qed.

Lemma holders_insert gs i g g' :
  gs !! i = Some g ->
  holders (<[i := g']> gs) + weight g = holders gs + weight g'.
Proof.
  revert i. induction gs as [| g0 gs IH]; intros [| i] Hi; simpl in *;
    try discriminate.
  - injection Hi as ->. rewrite !holders_cons. lia.
  - rewrite !holders_cons. specialize (IH i Hi). lia.
Qed.

Lemma holder_counted gs i g :
  gs !! i = Some g -> holds_mutex g = true -> 1 <= holders gs.
Proof.
  intros Hi Hg.
  pose proof (holders_insert gs i g (GetAtIndex "") Hi) as H.
  unfold weight in H. rewrite Hg in H. simpl in H. lia.
Qed.

Lemma two_holders_counted gs i j gi gj :
  i <> j ->
  gs !! i = Some gi -> holds_mutex gi = true ->
  gs !! j = Some gj -> holds_mutex gj = true ->
  2 <= holders gs.
Proof.
  intros Hne Hi Hgi Hj Hgj.
  pose proof (holders_insert gs i gi (GetAtIndex "") Hi) as H.
  unfold weight in H. rewrite Hgi in H. simpl in H.
  assert (Hj' : <[i := GetAtIndex ""]> gs !! j = Some gj)
    by (rewrite list_lookup_insert_ne; [exact Hj | exact Hne]).
  pose proof (holder_counted _ j gj Hj' Hgj). lia.
Qed.

Lemma holders_at_entry gs :
  Forall (fun g => at_entry g = true) gs -> holders gs = 0.
Proof.
  induction 1 as [| g gs Hg _ IH]; [reflexivity |].
  rewrite holders_cons, IH. unfold weight.
  destruct g; simpl in *; try discriminate; reflexivity.
Qed.

Lemma initial_mutex_inv σ : initial σ -> mutex_inv σ.
Proof.
  intros [Hdb Hgs]. destruct (initialised_inv _ Hdb) as (h & Hh).
  unfold mutex_inv. rewrite Hh. simpl.
  split; [apply holders_at_entry, Hgs |]. split; [eexists; reflexivity |].
  eapply Forall_impl; [exact Hgs |].
  intros g Hg. destruct g; simpl in *; try discriminate; reflexivity.
Qed.

Lemma step_mutex_inv σ σ' : step σ σ' -> mutex_inv σ -> mutex_inv σ'.
Proof.
  intros [i Hstep] (Hcount & Hmap & Hpanic). unfold step_at in Hstep.
  destruct (running σ !! i) as [g|] eqn:Hi; simpl in Hstep; [| discriminate].
  destruct (step_goroutine (store σ) g) as [[db g']|] eqn:Hg; simpl in Hstep;
    [| discriminate].
  injection Hstep as <-. unfold mutex_inv. simpl.
  pose proof (holders_insert _ i g g' Hi) as Hins.
  pose proof (Forall_lookup_1 _ _ _ _ Hpanic Hi) as Hcalm.
  destruct σ as [[[l] m] gs]. simpl in *. destruct Hmap as [h ->].
  destruct g; simpl in Hg, Hcalm; unfold sync.Lock, sync.Unlock in Hg; simpl in Hg;
    try discriminate;
    try (destruct l; simpl in Hg; try discriminate);
    try (destruct (MapDatabase_Get _ _) as [v0 err0]);
    injection Hg as <- <-; simpl; unfold weight in Hins; simpl in Hins;
    (split; [lia |]; split; [eexists; reflexivity |]);
    (apply Forall_insert; [exact Hpanic | reflexivity]).
Qed.

Lemma steps_mutex_inv σ σ' : rtc step σ σ' -> mutex_inv σ -> mutex_inv σ'.
Proof.
  induction 1 as [| σ1 σ2 σ3 Hstep _ IH]; intros Hinv; [exact Hinv |].
  apply IH. eapply step_mutex_inv; [exact Hstep | exact Hinv].
Qed.

(** Two calls of [Set] are never in the critical section together. *)
Lemma Set_critical_sections_exclusive σ σ' i j gi gj :
  initial σ -> rtc step σ σ' ->
  running σ' !! i = Some gi -> holds_mutex gi = true ->
  running σ' !! j = Some gj -> holds_mutex gj = true ->
  i = j.
Proof.
  intros Hinit Hsteps Hi Hgi Hj Hgj.
  destruct (steps_mutex_inv _ _ Hsteps (initial_mutex_inv _ Hinit)) as [Hcount _].
  destruct (decide (i = j)) as [| Hne]; [assumption |].
  pose proof (two_holders_counted _ i j gi gj Hne Hi Hgi Hj Hgj).
  destruct (sync.locked _); lia.
Qed.

(** A call of [Set] that runs alone goes through its steps to the result of
    [MapDatabase_Set]. *)
Lemma Set_alone db k v err db' :
  MapDatabase_Set db k v = Returns (err, db') ->
  rtc step (mk_system db [SetAtLock k v]) (mk_system db' [SetReturned err]).
Proof.
  unfold MapDatabase_Set.
  destruct db as [[[|]] [h|]]; simpl; try discriminate.
  intros [= <- <-].
  eapply rtc_l; [exists 0; reflexivity |].
  eapply rtc_l; [exists 0; reflexivity |].
  eapply rtc_l; [exists 0; reflexivity |].
  apply rtc_refl.
Qed.

(** C9. [NewMapDatabase] returns a store whose map is made (not nil). Every
    sequence of [Get] and [Set] calls on it returns, without a panic, and
    leaves a store whose map is made and on which every [Set] returns [nil];
    and when the calls run as goroutines, the map stays made and no goroutine
    ever reaches the panic of an assignment to a nil map. *)
Theorem NewMapDatabase_map_always_made (ops : list op) :
  is_Some (hashtable NewMapDatabase) /\
  (exists db,
     run ops NewMapDatabase = Returns db /\
     is_Some (hashtable db) /\
     forall k v, exists db',
       MapDatabase_Set db k v = Returns (None, db') /\
       is_Some (hashtable db')) /\
  (forall gs σ' i g,
     Forall (fun g => at_entry g = true) gs ->
     rtc step (mk_system NewMapDatabase gs) σ' ->
     is_Some (hashtable (store σ')) /\
     (running σ' !! i = Some g -> panicking g = false)).
Proof.
  split; [eexists; reflexivity |]. split.
  - destruct (run_initialised ops NewMapDatabase eq_refl) as (db & Hrun & Hdb).
    exists db. split; [exact Hrun |].
    destruct (initialised_inv db Hdb) as (h & ->).
    split; [eexists; reflexivity |].
    intros k v. eexists. split; [reflexivity | eexists; reflexivity].
  - intros gs σ' i g Hgs Hsteps.
    assert (Hinit : initial (mk_system NewMapDatabase gs))
      by (split; [reflexivity | exact Hgs]).
    destruct (steps_mutex_inv _ _ Hsteps (initial_mutex_inv _ Hinit))
      as (_ & Hmap & Hpanic).
    split; [exact Hmap |]. intros Hi.
    rewrite Forall_lookup in Hpanic. exact (Hpanic i g Hi).
Qed.

(** C4, where the code departs from it. One request sets "foo" while another
    gets it, on the store [NewMapDatabase] made: the system is initial, and
    it reaches a state in which the first goroutine is between [Lock] and
    [Unlock] and the second one makes its map read as its next step. [Get]
    takes no lock, so its read falls inside the critical section of [Set]. *)
Theorem Get_reads_inside_Set_critical_section :
  initial (mk_system NewMapDatabase [SetAtLock "foo" "bar"; GetAtIndex "foo"]) /\
  exists σ,
    rtc step (mk_system NewMapDatabase [SetAtLock "foo" "bar"; GetAtIndex "foo"]) σ /\
    running σ !! 0 = Some (SetAtAssign "foo" "bar") /\
    sync.locked (hashtableMutex (store σ)) = true /\
    reads_inside_critical_section σ 0 1.
Proof.
  split.
  - split; [reflexivity |]. repeat constructor.
  - eexists. split; [eapply rtc_l; [exists 0; reflexivity | apply rtc_refl] |].
    split; [reflexivity |]. split; [reflexivity |].
    split; [discriminate |]. split; [eexists; split; reflexivity |].
    split; [eexists; reflexivity |]. eexists. reflexivity.
Qed.

End interleaving.

(** * The dispatcher *)

Section dispatcher.

Implicit Types (db : MapDatabase) (k v o : string) (w : http.ResponseWriter).

Lemma append_empty (t : string) : t +:+ "" = t.
Proof.
  induction t as [| c t IH]; [reflexivity |].
  change (String c (t +:+ "") = String c t). rewrite IH. reflexivity.
Qed.

Lemma contains_suffix (pre sub : string) : contains (pre +:+ sub) sub.
Proof. exists pre, "". rewrite append_empty. reflexivity. Qed.

(** The [Response] that [handleGet] hands to the encoder for a key without
    association has status 500, no value, and the error of the store. *)
Lemma getResponse_absent db k :
  lookup_key db k = None ->
  let '(value, err) := MapDatabase_Get db k in
  getResponse value err
  = {| Response_Error := Some (errors.New "this value doesn't exist");
       Response_Status := 500;
       Response_Value := "" |}.
Proof. intros Hk. rewrite Get_lookup_key, Hk. reflexivity. Qed.

(** What a GET request for a key without association writes. *)
Lemma handleGet_absent db k o v w :
  lookup_key db k = None ->
  handleGet (mk_Request o k v) w db
  = Returns
      (w ++ [http.CallWrite
               (json.Encoded
                  (json.JObject [("Error", json.JObject []);
                                 ("Status", json.JNumber 500)]))],
       db).
Proof.
  intros Hk. unfold handleGet. simpl. rewrite Get_lookup_key, Hk. reflexivity.
Qed.

(** What a GET request for a key with an association writes. *)
Lemma handleGet_present db k o v w value :
  lookup_key db k = Some value ->
  handleGet (mk_Request o k v) w db
  = Returns
      (w ++ [http.CallWrite
               (json.Encoded
                  (json.JObject
                     (("Status", json.JNumber 200)
                      :: if decide (value = "") then []
                         else [("Value", json.JString (json.valid_text value))])))],
       db).
Proof.
  intros Hk. unfold handleGet. simpl. rewrite Get_lookup_key, Hk. reflexivity.
Qed.

(** C2, where the code departs from it. A GET request for "missing" on the
    store [NewMapDatabase] made: the handler writes one JSON object, with no
    status line of its own. Its [Status] is 500 and it has no [Value], as the
    claim says; its [Error] is the empty object, not the text "this value
    doesn't exist". *)
Theorem Get_missing_key_response :
  exists j,
    handler (mk_Request "GET" "missing" "", None) [] NewMapDatabase
    = Returns ([http.CallWrite (json.Encoded j)], NewMapDatabase) /\
    json.member "Status" j = Some (json.JNumber 500) /\
    json.member "Value" j = None /\
    json.member "Error" j = Some (json.JObject []) /\
    json.member "Error" j <> Some (json.JString "this value doesn't exist").
Proof.
  eexists. split; [reflexivity |]. repeat split. discriminate.
Qed.

(** C5. For a decoded request whose [Op] is neither "GET" nor "SET", whatever
    the store: the handler calls neither [Get] nor [Set] (a store that records
    its calls has recorded none, and is left as it was), and it writes the
    status 500 and then the text "Unrecognised op: " followed by the [Op],
    which therefore occurs in the text. *)
Theorem unrecognised_op_response {D : Type} `{Database D}
    (reqBody : Request) (w : http.ResponseWriter) (spy : Recorder D) :
  Request_Op reqBody <> "GET" ->
  Request_Op reqBody <> "SET" ->
  exists w' (spy' : Recorder D) text,
    handler (reqBody, None) w spy = Returns (w', spy') /\
    spy' = spy /\
    received spy' = received spy /\
    w' = w ++ [http.CallWriteHeader 500; http.CallWrite (json.Text text)] /\
    text = "Unrecognised op: " +:+ Request_Op reqBody /\
    contains text (Request_Op reqBody) /\
    (w = [] -> http.statusCode w' = 500%N /\ http.body w' = [json.Text text]).
Proof.
  intros HGET HSET.
  exists (w ++ [http.CallWriteHeader 500;
                http.CallWrite (json.Text ("Unrecognised op: " +:+ Request_Op reqBody))]),
    spy, ("Unrecognised op: " +:+ Request_Op reqBody).
  split.
  { unfold handler.
    destruct (decide (Request_Op reqBody = "GET")); [contradiction |].
    destruct (decide (Request_Op reqBody = "SET")); [contradiction |].
    unfold http.Write, http.WriteHeader. rewrite <- app_assoc. reflexivity. }
  repeat split; try reflexivity.
  - apply contains_suffix.
  - subst w. reflexivity.
  - subst w. reflexivity.
Qed.

Lemma unrecognised_op_response_DELETE :
  "DELETE" <> "GET" /\
  "DELETE" <> "SET" /\
  exists w' (spy' : Recorder MapDatabase) text,
    handler (mk_Request "DELETE" "foo" "", None) []
      (mk_Recorder NewMapDatabase []) = Returns (w', spy') /\
    spy' = mk_Recorder NewMapDatabase [] /\
    received spy' = received (mk_Recorder NewMapDatabase []) /\
    w' = [] ++ [http.CallWriteHeader 500; http.CallWrite (json.Text text)] /\
    text = "Unrecognised op: " +:+ Request_Op (mk_Request "DELETE" "foo" "") /\
    contains text (Request_Op (mk_Request "DELETE" "foo" "")) /\
    (@nil http.call = [] ->
     http.statusCode w' = 500%N /\ http.body w' = [json.Text text]).
Proof.
  assert (HGET : "DELETE" <> "GET") by discriminate.
  assert (HSET : "DELETE" <> "SET") by discriminate.
  split; [exact HGET |]. split; [exact HSET |].
  exact (unrecognised_op_response (mk_Request "DELETE" "foo" "") []
           (mk_Recorder NewMapDatabase []) HGET HSET).
Defined.

(** C6. On a store that is ready for a call, [Set] returns [nil] for every
    key and every value, and the SET request is answered by the JSON object
    whose only member is [Status], 200: no [Value], no [Error], and no status
    line other than the 200 a first [Write] sends. *)
Theorem Set_always_succeeds db k v o w :
  initialised db = true ->
  exists db' j,
    MapDatabase_Set db k v = Returns (None, db') /\
    handleSet (mk_Request o k v) w db
    = Returns (w ++ [http.CallWrite (json.Encoded j)], db') /\
    handler (mk_Request "SET" k v, None) w db
    = Returns (w ++ [http.CallWrite (json.Encoded j)], db') /\
    j = json.JObject [("Status", json.JNumber 200)] /\
    json.member "Status" j = Some (json.JNumber 200) /\
    json.member "Value" j = None /\
    json.member "Error" j = None /\
    http.statusCode [http.CallWrite (json.Encoded j)] = 200%N.
Proof.
  intros Hdb. destruct (Set_initialised db k v Hdb) as (h & _ & HSet).
  eexists. exists (json.JObject [("Status", json.JNumber 200)]).
  split; [exact HSet |].
  assert (Hh : handleSet (mk_Request o k v) w db
               = Returns (w ++ [http.CallWrite (json.Encoded
                    (json.JObject [("Status", json.JNumber 200)]))],
                  mk_MapDatabase sync.zeroMutex (Some (<[k := v]> h)))).
  { unfold handleSet. simpl. rewrite HSet. reflexivity. }
  split; [exact Hh |]. split; [| repeat split].
  unfold handler. simpl. unfold handleSet. simpl. rewrite HSet. reflexivity.
Qed.

Lemma Set_always_succeeds_example :
  exists db' j,
    MapDatabase_Set NewMapDatabase "foo" "bar" = Returns (None, db') /\
    handleSet (mk_Request "SET" "foo" "bar") [] NewMapDatabase
    = Returns ([] ++ [http.CallWrite (json.Encoded j)], db') /\
    handler (mk_Request "SET" "foo" "bar", None) [] NewMapDatabase
    = Returns ([] ++ [http.CallWrite (json.Encoded j)], db') /\
    j = json.JObject [("Status", json.JNumber 200)] /\
    json.member "Status" j = Some (json.JNumber 200) /\
    json.member "Value" j = None /\
    json.member "Error" j = None /\
    http.statusCode [http.CallWrite (json.Encoded j)] = 200%N.
Proof.
  apply (Set_always_succeeds NewMapDatabase "foo" "bar" "SET" []). reflexivity.
Defined.

(** The exchange of the README, then a key that was never set and an
    operation that does not exist, each on the store the one before left. *)
Lemma README_exchange :
  exists db1,
    handler (mk_Request "SET" "foo" "bar", None) [] NewMapDatabase
    = Returns ([http.CallWrite
                  (json.Encoded (json.JObject [("Status", json.JNumber 200)]))],
               db1) /\
    handler (mk_Request "GET" "foo" "", None) [] db1
    = Returns ([http.CallWrite
                  (json.Encoded (json.JObject [("Status", json.JNumber 200);
                                               ("Value", json.JString "bar")]))],
               db1) /\
    handler (mk_Request "GET" "baz" "", None) [] db1
    = Returns ([http.CallWrite
                  (json.Encoded (json.JObject [("Error", json.JObject []);
                                               ("Status", json.JNumber 500)]))],
               db1) /\
    handler (mk_Request "DELETE" "foo" "", None) [] db1
    = Returns ([http.CallWriteHeader 500;
                http.CallWrite (json.Text "Unrecognised op: DELETE")],
               db1).
Proof.
  eexists. split; [reflexivity |]. split; [| split]; vm_compute; reflexivity.
Qed.

End dispatcher.

(** * Further properties of the store *)

Section store_algebra.

Implicit Types (db : MapDatabase) (k v : string).

(** [Set] with the key and value it was just called with changes nothing:
    the second call returns [nil] and leaves the store the first one left. *)
Theorem Set_twice_same_store db k v :
  initialised db = true ->
  exists db1,
    MapDatabase_Set db k v = Returns (None, db1) /\
    MapDatabase_Set db1 k v = Returns (None, db1).
Proof.
  intros Hdb. destruct (Set_initialised db k v Hdb) as (h & _ & HSet).
  eexists. split; [exact HSet |].
  unfold MapDatabase_Set. simpl. rewrite insert_insert_eq. reflexivity.
Qed.

Lemma Set_twice_same_store_example :
  exists db1,
    MapDatabase_Set NewMapDatabase "foo" "bar" = Returns (None, db1) /\
    MapDatabase_Set db1 "foo" "bar" = Returns (None, db1).
Proof. apply (Set_twice_same_store NewMapDatabase "foo" "bar"). reflexivity. Defined.

(** Two calls of [Set] on different keys leave the same store in either
    order. *)
Theorem Set_different_keys_commute db k1 v1 k2 v2 :
  initialised db = true ->
  k1 <> k2 ->
  exists db1 db2 db12,
    MapDatabase_Set db k1 v1 = Returns (None, db1) /\
    MapDatabase_Set db1 k2 v2 = Returns (None, db12) /\
    MapDatabase_Set db k2 v2 = Returns (None, db2) /\
    MapDatabase_Set db2 k1 v1 = Returns (None, db12).
Proof.
  intros Hdb Hne.
  destruct (Set_initialised db k1 v1 Hdb) as (h & Hh & HSet1).
  destruct (Set_initialised db k2 v2 Hdb) as (h' & Hh' & HSet2).
  rewrite Hh in Hh'. injection Hh' as <-.
  eexists. eexists.
  exists (mk_MapDatabase sync.zeroMutex (Some (<[k2 := v2]> (<[k1 := v1]> h)))).
  split; [exact HSet1 |]. split; [reflexivity |]. split; [exact HSet2 |].
  unfold MapDatabase_Set. simpl.
  rewrite (insert_insert_ne h k1 k2 v1 v2 Hne). reflexivity.
Qed.

Lemma Set_different_keys_commute_example :
  "foo" <> "baz" /\
  exists db1 db2 db12,
    MapDatabase_Set NewMapDatabase "foo" "bar" = Returns (None, db1) /\
    MapDatabase_Set db1 "baz" "qux" = Returns (None, db12) /\
    MapDatabase_Set NewMapDatabase "baz" "qux" = Returns (None, db2) /\
    MapDatabase_Set db2 "foo" "bar" = Returns (None, db12).
Proof.
  assert (Hne : "foo" <> "baz") by discriminate.
  split; [exact Hne |].
  apply (Set_different_keys_commute NewMapDatabase "foo" "bar" "baz" "qux");
    [reflexivity | exact Hne].
Defined.

(** After any sequence of [Get] and [Set] calls on a store that is ready,
    [Get(k)] returns the value of the last [Set] on [k] in the sequence, with
    a [nil] error; when the sequence sets [k] nowhere, it returns what it
    returned before the sequence. *)
Theorem Get_after_calls (ops : list op) db :
  initialised db = true ->
  exists db',
    run ops db = Returns db' /\
    forall k,
      MapDatabase_Get db' k
      = match last_set ops k with
        | Some v => (v, None)
        | None => MapDatabase_Get db k
        end.
Proof.
  revert db. induction ops as [| o ops IH]; intros db Hdb.
  - exists db. split; reflexivity.
  - destruct (exec_initialised db o Hdb) as (db1 & Hexec & Hdb1).
    destruct (IH db1 Hdb1) as (db' & Hrun & Hget).
    exists db'. split; [simpl; rewrite Hexec; exact Hrun |].
    intros k. rewrite Hget. simpl. destruct (last_set ops k); [reflexivity |].
    destruct o as [key | key value]; simpl in Hexec.
    + injection Hexec as <-. reflexivity.
    + destruct (MapDatabase_Set db key value) as [[err db2] | |] eqn:HSet;
        simpl in Hexec; try discriminate.
      injection Hexec as ->.
      rewrite !Get_lookup_key, (Set_lookup_key _ _ _ _ _ k HSet).
      destruct (decide (key = k)); reflexivity.
Qed.

Lemma Get_after_calls_example :
  exists db',
    run [OpSet "foo" "bar"; OpGet "foo"; OpSet "foo" "baz"] NewMapDatabase
    = Returns db' /\
    forall k,
      MapDatabase_Get db' k
      = match last_set [OpSet "foo" "bar"; OpGet "foo"; OpSet "foo" "baz"] k with
        | Some v => (v, None)
        | None => MapDatabase_Get NewMapDatabase k
        end.
Proof.
  apply (Get_after_calls [OpSet "foo" "bar"; OpGet "foo"; OpSet "foo" "baz"]
           NewMapDatabase).
  reflexivity.
Defined.

(** A store whose map was never made, such as the zero value
    [MapDatabase{}]: [Get] returns the error for every key, [Set] panics for
    every key and value, a SET request gets no response, and the deferred
    [Unlock] leaves the mutex free once the panic has unwound. *)
Theorem nil_map_store db k v :
  hashtable db = None ->
  sync.locked (hashtableMutex db) = false ->
  MapDatabase_Get db k = ("", Some (errors.New "this value doesn't exist")) /\
  MapDatabase_Set db k v = Panics "assignment to entry in nil map" /\
  (forall w, handler (mk_Request "SET" k v, None) w db
             = Panics "assignment to entry in nil map") /\
  rtc step (mk_system db [SetAtLock k v])
    (mk_system db [SetPanicked "assignment to entry in nil map"]).
Proof.
  destruct db as [[l] m]. simpl. intros -> ->.
  split; [reflexivity |]. split; [reflexivity |]. split; [reflexivity |].
  eapply rtc_l; [exists 0; reflexivity |].
  eapply rtc_l; [exists 0; reflexivity |].
  eapply rtc_l; [exists 0; reflexivity |].
  apply rtc_refl.
Qed.

Lemma nil_map_store_zero_value :
  MapDatabase_Get zeroMapDatabase "foo"
  = ("", Some (errors.New "this value doesn't exist")) /\
  MapDatabase_Set zeroMapDatabase "foo" "bar"
  = Panics "assignment to entry in nil map" /\
  (forall w, handler (mk_Request "SET" "foo" "bar", None) w zeroMapDatabase
             = Panics "assignment to entry in nil map") /\
  rtc step (mk_system zeroMapDatabase [SetAtLock "foo" "bar"])
    (mk_system zeroMapDatabase [SetPanicked "assignment to entry in nil map"]).
Proof.
  apply (nil_map_store zeroMapDatabase "foo" "bar"); reflexivity.
Defined.

End store_algebra.

(** * Further properties of the dispatcher *)

Lemma Set_returns_nil (db : MapDatabase) (k v : string) (err : error)
    (db' : MapDatabase) :
  MapDatabase_Set db k v = Returns (err, db') -> err = None.
Proof.
  unfold MapDatabase_Set.
  destruct db as [[[|]] [h|]]; simpl; try discriminate.
  intros [= <- _]. reflexivity.
Qed.

Section requests.

Implicit Types (db : MapDatabase) (k v : string).

(** The calls the handler makes on the store, told by a store that records
    them: one [Get] with the key of the request for "GET", one [Set] with its
    key and value for "SET", in both cases whatever the call does, and none
    for a body that did not decode or an [Op] it does not know. Apart from
    the record, the handler behaves as on the store recorded. *)
Theorem handler_store_calls {D : Type} `{Database D}
    (decoded : Request * error) (w : http.ResponseWriter) (spy : Recorder D) :
  handler decoded w spy
  = '(w', d) ← handler decoded w (delegate spy);
    Returns (w', mk_Recorder d (received spy ++ calls_of decoded)).
Proof.
  destruct spy as [d0 calls]. destruct decoded as [reqBody [e |]];
    unfold handler, calls_of; simpl.
  { rewrite app_nil_r. reflexivity. }
  destruct (decide (Request_Op reqBody = "GET")).
  { unfold handleGet. simpl.
    destruct (Database_Get d0 (Request_Key reqBody)) as [[[value err] d1] | |];
      reflexivity. }
  destruct (decide (Request_Op reqBody = "SET")).
  { unfold handleSet. simpl.
    destruct (Database_Set d0 (Request_Key reqBody) (Request_Value reqBody))
      as [[[e1 |] d1] | |]; reflexivity. }
  simpl. rewrite app_nil_r. reflexivity.
Qed.

Lemma handler_store_left (decoded : Request * error) (w : http.ResponseWriter) db :
  store_left (handler decoded w db) = run (calls_of decoded) db.
Proof.
  destruct decoded as [reqBody [e |]]; unfold handler, calls_of; simpl;
    [reflexivity |].
  destruct (decide (Request_Op reqBody = "GET")).
  { unfold handleGet. simpl.
    destruct (MapDatabase_Get db (Request_Key reqBody)). reflexivity. }
  destruct (decide (Request_Op reqBody = "SET")); [| reflexivity].
  unfold handleSet. simpl.
  destruct (MapDatabase_Set db (Request_Key reqBody) (Request_Value reqBody))
    as [[[e1 |] d1] | |]; reflexivity.
Qed.

(** A request changes the store only if it decoded and its [Op] is "SET":
    after any other request that is answered, the store is the one before. *)
Theorem only_SET_changes_store
    (decoded : Request * error) (w w' : http.ResponseWriter) db db' :
  handler decoded w db = Returns (w', db') ->
  db' <> db ->
  snd decoded = None /\
  Request_Op (fst decoded) = "SET" /\
  MapDatabase_Set db (Request_Key (fst decoded)) (Request_Value (fst decoded))
  = Returns (None, db').
Proof.
  intros Hh Hne.
  pose proof (handler_store_left decoded w db) as Hs.
  rewrite Hh in Hs. unfold store_left in Hs. simpl in Hs.
  destruct decoded as [reqBody [e |]]; unfold calls_of in Hs; simpl in *.
  { injection Hs as ->. contradiction. }
  destruct (decide (Request_Op reqBody = "GET")).
  { simpl in Hs. injection Hs as ->. contradiction. }
  destruct (decide (Request_Op reqBody = "SET")) as [HSET |].
  - split; [reflexivity |]. split; [exact HSET |].
    simpl in Hs.
    destruct (MapDatabase_Set db (Request_Key reqBody) (Request_Value reqBody))
      as [[err d1] | |] eqn:HSet; simpl in Hs; try discriminate.
    injection Hs as <-.
    destruct (Set_returns_nil db _ _ _ _ HSet). reflexivity.
  - simpl in Hs. injection Hs as ->. contradiction.
Qed.

Lemma only_SET_changes_store_example :
  handler (mk_Request "SET" "foo" "bar", None) [] NewMapDatabase
  = Returns ([http.CallWrite
                (json.Encoded (json.JObject [("Status", json.JNumber 200)]))],
             mk_MapDatabase sync.zeroMutex (Some (<["foo" := "bar"]> ∅))) /\
  mk_MapDatabase sync.zeroMutex (Some (<["foo" := "bar"]> ∅)) <> NewMapDatabase /\
  snd (mk_Request "SET" "foo" "bar", @None errors.errorString) = None /\
  Request_Op (fst (mk_Request "SET" "foo" "bar", @None errors.errorString)) = "SET" /\
  MapDatabase_Set NewMapDatabase
    (Request_Key (fst (mk_Request "SET" "foo" "bar", @None errors.errorString)))
    (Request_Value (fst (mk_Request "SET" "foo" "bar", @None errors.errorString)))
  = Returns (None, mk_MapDatabase sync.zeroMutex (Some (<["foo" := "bar"]> ∅))).
Proof.
  assert (Hh : handler (mk_Request "SET" "foo" "bar", None) [] NewMapDatabase
               = Returns ([http.CallWrite
                    (json.Encoded (json.JObject [("Status", json.JNumber 200)]))],
                  mk_MapDatabase sync.zeroMutex (Some (<["foo" := "bar"]> ∅))))
    by reflexivity.
  assert (Hne : mk_MapDatabase sync.zeroMutex (Some (<["foo" := "bar"]> ∅))
                <> NewMapDatabase).
  { intros Heq. apply (f_equal (fun d => lookup_key d "foo")) in Heq.
    vm_compute in Heq. discriminate. }
  split; [exact Hh |]. split; [exact Hne |].
  exact (only_SET_changes_store _ _ _ _ _ Hh Hne).
Defined.

(** The status line of the response to a request on a store that is ready:
    400 for a body that did not decode, 500 for an [Op] that is neither "GET"
    nor "SET", and 200 for every GET and every SET, the ones for a key that
    is not there included. *)
Theorem handler_status_line (decoded : Request * error) db :
  initialised db = true ->
  status_left (handler decoded [] db)
  = Returns (match snd decoded with
             | Some _ => 400%N
             | None =>
                 if decide (Request_Op (fst decoded) = "GET") then 200%N
                 else if decide (Request_Op (fst decoded) = "SET") then 200%N
                 else 500%N
             end).
Proof.
  intros Hdb. destruct decoded as [reqBody [e |]]; unfold handler; simpl;
    [reflexivity |].
  destruct (decide (Request_Op reqBody = "GET")).
  { unfold handleGet. simpl.
    destruct (MapDatabase_Get db (Request_Key reqBody)). reflexivity. }
  destruct (decide (Request_Op reqBody = "SET")); [| reflexivity].
  unfold handleSet. simpl.
  destruct (Set_initialised db (Request_Key reqBody) (Request_Value reqBody) Hdb)
    as (h & _ & ->).
  reflexivity.
Qed.

Lemma handler_status_line_example :
  status_left (handler (mk_Request "GET" "missing" "", None) [] NewMapDatabase)
  = Returns (match snd (mk_Request "GET" "missing" "", @None errors.errorString) with
             | Some _ => 400%N
             | None =>
                 if decide (Request_Op (fst (mk_Request "GET" "missing" "",
                                             @None errors.errorString)) = "GET")
                 then 200%N
                 else if decide (Request_Op (fst (mk_Request "GET" "missing" "",
                                                  @None errors.errorString)) = "SET")
                 then 200%N
                 else 500%N
             end).
Proof.
  apply (handler_status_line (mk_Request "GET" "missing" "", None) NewMapDatabase).
  reflexivity.
Defined.

(** A GET for a key that has no association is answered with the status
    line 200 (the handler never calls [WriteHeader] for it) and a body whose
    [Status] is 500: the two disagree. *)
Theorem GET_missing_status_line_is_200 db k v :
  lookup_key db k = None ->
  exists w' j,
    handler (mk_Request "GET" k v, None) [] db = Returns (w', db) /\
    http.statusCode w' = 200%N /\
    http.body w' = [json.Encoded j] /\
    json.member "Status" j = Some (json.JNumber 500).
Proof.
  intros Hk. eexists. eexists. split.
  - unfold handler. simpl. apply (handleGet_absent db k "GET" v [] Hk).
  - repeat split.
Qed.

Lemma GET_missing_status_line_is_200_example :
  exists w' j,
    handler (mk_Request "GET" "missing" "", None) [] NewMapDatabase
    = Returns (w', NewMapDatabase) /\
    http.statusCode w' = 200%N /\
    http.body w' = [json.Encoded j] /\
    json.member "Status" j = Some (json.JNumber 500).
Proof.
  apply (GET_missing_status_line_is_200 NewMapDatabase "missing" "").
  reflexivity.
Defined.

Lemma utf8_first_ascii (c : ascii) :
  (N_of_ascii c <? 128)%N = true -> json.utf8_first c = json.Single.
Proof. intros Hc. unfold json.utf8_first. rewrite Hc. reflexivity. Qed.

Lemma valid_text_ascii (t : string) :
  json.is_ascii t = true -> json.valid_text t = t.
Proof.
  induction t as [| c t IH]; [reflexivity |].
  simpl. intros [Hc Ht]%andb_true_iff.
  rewrite (utf8_first_ascii c Hc), (IH Ht). reflexivity.
Qed.

(** A SET request and then a GET request for the same key, on a store that is
    ready: the GET is answered with status line 200 and a body whose [Status]
    is 200 and whose [Value] spells the value set, each byte of it that is
    not well-formed UTF-8 replaced by U+FFFD; for a value of ASCII bytes that
    is the value itself. When the value set is the empty string the body has
    no [Value] member at all: it is the body of the answer to a SET. *)
Theorem SET_then_GET_response db k v v' :
  initialised db = true ->
  exists db1 w1 w2,
    handler (mk_Request "SET" k v, None) [] db = Returns (w1, db1) /\
    handler (mk_Request "GET" k v', None) [] db1 = Returns (w2, db1) /\
    http.statusCode w2 = 200%N /\
    http.body w2
    = [json.Encoded
         (json.JObject
            (("Status", json.JNumber 200)
             :: if decide (v = "") then []
                else [("Value", json.JString (json.valid_text v))]))] /\
    (json.is_ascii v = true -> json.valid_text v = v) /\
    (v = "" -> http.body w2 = http.body w1).
Proof.
  intros Hdb. destruct (Set_initialised db k v Hdb) as (h & _ & HSet).
  assert (Hk : lookup_key (mk_MapDatabase sync.zeroMutex (Some (<[k := v]> h))) k
               = Some v)
    by (unfold lookup_key; simpl; apply lookup_insert_eq).
  eexists. eexists. eexists. split.
  { unfold handler, handleSet. simpl. rewrite HSet. reflexivity. }
  split.
  { unfold handler. simpl. apply (handleGet_present _ k "GET" v' [] v Hk). }
  split; [reflexivity |]. split; [reflexivity |].
  split; [apply valid_text_ascii |].
  intros ->. reflexivity.
Qed.

Lemma SET_then_GET_response_example :
  exists db1 w1 w2,
    handler (mk_Request "SET" "foo" "bar", None) [] NewMapDatabase
    = Returns (w1, db1) /\
    handler (mk_Request "GET" "foo" "", None) [] db1 = Returns (w2, db1) /\
    http.statusCode w2 = 200%N /\
    http.body w2
    = [json.Encoded
         (json.JObject
            (("Status", json.JNumber 200)
             :: if decide ("bar" = "") then []
                else [("Value", json.JString (json.valid_text "bar"))]))] /\
    (json.is_ascii "bar" = true -> json.valid_text "bar" = "bar") /\
    ("bar" = "" -> http.body w2 = http.body w1).
Proof.
  apply (SET_then_GET_response NewMapDatabase "foo" "bar" ""). reflexivity.
Defined.

(** A byte that is no UTF-8 at all, set as a value, comes back as U+FFFD. *)
Lemma SET_then_GET_byte_255 :
  exists db1 w1,
    handler (mk_Request "SET" "foo" (String (ascii_of_N 255) ""), None) []
      NewMapDatabase = Returns (w1, db1) /\
    handler (mk_Request "GET" "foo" "", None) [] db1
    = Returns ([http.CallWrite
                  (json.Encoded
                     (json.JObject [("Status", json.JNumber 200);
                                    ("Value", json.JString json.replacement)]))],
               db1).
Proof. eexists. eexists. split; [reflexivity | vm_compute; reflexivity]. Qed.

Lemma run_app (ops1 ops2 : list op) db :
  run (ops1 ++ ops2) db = db' ← run ops1 db; run ops2 db'.
Proof.
  revert db. induction ops1 as [| o ops1 IH]; intros db; simpl; [reflexivity |].
  destruct (exec o db) as [db1 | |]; simpl; [apply IH | reflexivity | reflexivity].
Qed.

(** Requests served one after the other on a store that is ready are all
    answered, whatever they are: one response per request, no panic and no
    wait; the store left is ready again, and it is the store that the calls
    the requests ask for leave when made in the same order. *)
Theorem serve_answers_every_request (requests : list (Request * error)) db :
  initialised db = true ->
  exists ws db',
    serve requests db = Returns (ws, db') /\
    length ws = length requests /\
    initialised db' = true /\
    run (concat (calls_of <$> requests)) db = Returns db'.
Proof.
  revert db. induction requests as [| decoded requests IH]; intros db Hdb.
  - exists [], db. repeat split. exact Hdb.
  - pose proof (handler_store_left decoded [] db) as Hs.
    assert (Hc : exists db1, run (calls_of decoded) db = Returns db1 /\
                             initialised db1 = true)
      by (apply run_initialised, Hdb).
    destruct Hc as (db1 & Hrun1 & Hdb1). rewrite Hrun1 in Hs.
    destruct (handler decoded [] db) as [[w d] | |] eqn:Hh;
      unfold store_left in Hs; simpl in Hs; try discriminate.
    injection Hs as ->.
    destruct (IH db1 Hdb1) as (ws & db' & Hserve & Hlen & Hdb' & Hrun).
    exists (w :: ws), db'. split; [| split; [| split]].
    + simpl. rewrite Hh. simpl. rewrite Hserve. reflexivity.
    + simpl. rewrite Hlen. reflexivity.
    + exact Hdb'.
    + rewrite fmap_cons. simpl. rewrite run_app, Hrun1. exact Hrun.
Qed.

Lemma serve_answers_every_request_example :
  exists ws db',
    serve [(mk_Request "SET" "foo" "bar", None);
           (mk_Request "" "" "", Some (errors.New "EOF"));
           (mk_Request "GET" "foo" "", None);
           (mk_Request "DELETE" "foo" "", None)] NewMapDatabase
    = Returns (ws, db') /\
    length ws
    = length [(mk_Request "SET" "foo" "bar", @None errors.errorString);
              (mk_Request "" "" "", Some (errors.New "EOF"));
              (mk_Request "GET" "foo" "", None);
              (mk_Request "DELETE" "foo" "", None)] /\
    initialised db' = true /\
    run (concat (calls_of <$>
                   [(mk_Request "SET" "foo" "bar", @None errors.errorString);
                    (mk_Request "" "" "", Some (errors.New "EOF"));
                    (mk_Request "GET" "foo" "", None);
                    (mk_Request "DELETE" "foo" "", None)])) NewMapDatabase
    = Returns db'.
Proof.
  apply (serve_answers_every_request
           [(mk_Request "SET" "foo" "bar", None);
            (mk_Request "" "" "", Some (errors.New "EOF"));
            (mk_Request "GET" "foo" "", None);
            (mk_Request "DELETE" "foo" "", None)] NewMapDatabase).
  reflexivity.
Defined.

Lemma part_000_body db (decoded : Request * error) (w' : http.ResponseWriter) db' :
  main_part_000.handler decoded [] db = Returns (w', db') ->
  calls_of decoded <> [] ->
  http.body w' = [json.Encoded (json.JObject [])].
Proof.
  destruct decoded as [reqBody [e |]];
    unfold main_part_000.handler, calls_of; simpl; [intros _ Hc; contradiction |].
  destruct (decide (Request_Op reqBody = "GET")).
  { unfold main_part_000.handleGet. simpl.
    destruct (MapDatabase_Get db (Request_Key reqBody)).
    intros [= <- _] _. reflexivity. }
  destruct (decide (Request_Op reqBody = "SET")); [| intros _ Hc; contradiction].
  unfold main_part_000.handleSet. simpl.
  destruct (MapDatabase_Set db (Request_Key reqBody) (Request_Value reqBody))
    as [[err d1] | |] eqn:HSet; simpl; try discriminate.
  rewrite (Set_returns_nil _ _ _ _ _ HSet). intros [= <- _] _. reflexivity.
Qed.

(** The handler of the earlier [main.go] on a [MapDatabase]: for every
    request it leaves the same store and the same status line as the present
    handler. Its body differs: every GET and every SET that is answered gets
    the empty JSON object, so a GET never shows the value it read nor the
    error. *)
Theorem part_000_handler (decoded : Request * error) db :
  store_left (main_part_000.handler decoded [] db)
  = store_left (handler decoded [] db) /\
  status_left (main_part_000.handler decoded [] db)
  = status_left (handler decoded [] db) /\
  (forall w' db',
     main_part_000.handler decoded [] db = Returns (w', db') ->
     calls_of decoded <> [] ->
     http.body w' = [json.Encoded (json.JObject [])]).
Proof.
  split; [| split; [| intros w' db'; apply part_000_body]];
    destruct decoded as [reqBody [e |]];
    unfold handler, main_part_000.handler; simpl; try reflexivity;
    (destruct (decide (Request_Op reqBody = "GET"));
     [unfold handleGet, main_part_000.handleGet; simpl;
      destruct (MapDatabase_Get db (Request_Key reqBody)) as [value err];
      reflexivity |]);
    (destruct (decide (Request_Op reqBody = "SET")); [| reflexivity]);
    unfold handleSet, main_part_000.handleSet; simpl;
    destruct (MapDatabase_Set db (Request_Key reqBody) (Request_Value reqBody))
      as [[[e1 |] d1] | |]; reflexivity.
Qed.

End requests.

(** * Further properties of goroutines on one store *)

Section schedules.

Implicit Types (σ : system) (gs : list goroutine) (g : goroutine).

Lemma holder_exists gs :
  1 <= holders gs -> exists i g, gs !! i = Some g /\ holds_mutex g = true.
Proof.
  induction gs as [| g0 gs IH]; [unfold holders; simpl; lia |].
  rewrite holders_cons. unfold weight.
  destruct (holds_mutex g0) eqn:Hg0.
  - intros _. exists 0, g0. split; [reflexivity | exact Hg0].
  - intros Hle. destruct (IH Hle) as (i & g & Hi & Hg).
    exists (S i), g. split; assumption.
Qed.

Lemma unfinished_exists gs :
  Forall (fun g => finished g = true) gs \/
  exists i g, gs !! i = Some g /\ finished g = false.
Proof.
  induction gs as [| g0 gs IH]; [left; constructor |].
  destruct (finished g0) eqn:Hg0.
  - destruct IH as [Hall | (i & g & Hi & Hg)].
    + left. constructor; assumption.
    + right. exists (S i), g. split; assumption.
  - right. exists 0, g0. split; [reflexivity | exact Hg0].
Qed.

Lemma reachable_mutex_inv σ0 σ : initial σ0 -> rtc step σ0 σ -> mutex_inv σ.
Proof. intros Hinit Hsteps. eapply steps_mutex_inv; [exact Hsteps |]. apply initial_mutex_inv, Hinit. Qed.

(** While a call of [Set] is between [Lock] and [Unlock], the mutex is
    locked, no other goroutine is between them, and every call of [Set] that
    is at its [Lock] cannot move. *)
Theorem Set_holds_mutex_alone σ0 σ i gi :
  initial σ0 ->
  rtc step σ0 σ ->
  running σ !! i = Some gi ->
  holds_mutex gi = true ->
  sync.locked (hashtableMutex (store σ)) = true /\
  (forall j gj, running σ !! j = Some gj -> holds_mutex gj = true -> j = i) /\
  (forall j key value,
     running σ !! j = Some (SetAtLock key value) -> step_at j σ = None).
Proof.
  intros Hinit Hsteps Hi Hgi.
  destruct (reachable_mutex_inv _ _ Hinit Hsteps) as (Hcount & _ & _).
  pose proof (holder_counted _ _ _ Hi Hgi) as Hpos.
  assert (Hlocked : sync.locked (hashtableMutex (store σ)) = true)
    by (destruct (sync.locked _); [reflexivity | lia]).
  split; [exact Hlocked |]. split.
  - intros j gj Hj Hgj.
    exact (Set_critical_sections_exclusive _ _ _ _ _ _ Hinit Hsteps Hj Hgj Hi Hgi).
  - intros j key value Hj. unfold step_at. rewrite Hj. simpl.
    unfold sync.Lock. rewrite Hlocked. reflexivity.
Qed.

Lemma Set_holds_mutex_alone_example :
  initial (mk_system NewMapDatabase [SetAtLock "a" "1"; SetAtLock "b" "2"]) /\
  rtc step (mk_system NewMapDatabase [SetAtLock "a" "1"; SetAtLock "b" "2"])
    (mk_system (mk_MapDatabase (sync.mk_Mutex true) (Some ∅))
       [SetAtAssign "a" "1"; SetAtLock "b" "2"]) /\
  sync.locked (hashtableMutex (store
     (mk_system (mk_MapDatabase (sync.mk_Mutex true) (Some ∅))
        [SetAtAssign "a" "1"; SetAtLock "b" "2"]))) = true /\
  (forall j gj,
     running (mk_system (mk_MapDatabase (sync.mk_Mutex true) (Some ∅))
                [SetAtAssign "a" "1"; SetAtLock "b" "2"]) !! j = Some gj ->
     holds_mutex gj = true -> j = 0) /\
  (forall j key value,
     running (mk_system (mk_MapDatabase (sync.mk_Mutex true) (Some ∅))
                [SetAtAssign "a" "1"; SetAtLock "b" "2"]) !! j
     = Some (SetAtLock key value) ->
     step_at j (mk_system (mk_MapDatabase (sync.mk_Mutex true) (Some ∅))
                  [SetAtAssign "a" "1"; SetAtLock "b" "2"]) = None).
Proof.
  assert (Hinit : initial (mk_system NewMapDatabase
                             [SetAtLock "a" "1"; SetAtLock "b" "2"]))
    by (split; [reflexivity | repeat constructor]).
  assert (Hsteps : rtc step
            (mk_system NewMapDatabase [SetAtLock "a" "1"; SetAtLock "b" "2"])
            (mk_system (mk_MapDatabase (sync.mk_Mutex true) (Some ∅))
               [SetAtAssign "a" "1"; SetAtLock "b" "2"]))
    by (eapply rtc_l; [exists 0; reflexivity | apply rtc_refl]).
  split; [exact Hinit |]. split; [exact Hsteps |].
  exact (Set_holds_mutex_alone _ _ 0 (SetAtAssign "a" "1") Hinit Hsteps
           eq_refl eq_refl).
Defined.

(** Calls of [Set] never wait for each other for ever: from a ready store
    and goroutines that all run [Set], every state reached is one in which
    all calls have ended, or one in which some goroutine can take a step. *)
Theorem Set_calls_never_deadlock σ0 σ :
  initial σ0 ->
  Forall (fun g => is_Set_call g = true) (running σ0) ->
  rtc step σ0 σ ->
  Forall (fun g => finished g = true) (running σ) \/ exists σ', step σ σ'.
Proof.
  intros Hinit _ Hsteps.
  destruct (reachable_mutex_inv _ _ Hinit Hsteps) as (Hcount & [h Hmap] & _).
  destruct (unfinished_exists (running σ)) as [Hall | (i & g & Hi & Hg)];
    [left; exact Hall | right].
  destruct σ as [[[l] m] gs]. simpl in *. subst m. destruct l.
  - destruct (holder_exists gs) as (j & gj & Hj & Hgj); [lia |].
    unfold step, step_at. exists (mk_system
      (match gj with
       | SetAtAssign key value =>
           mk_MapDatabase (sync.mk_Mutex true) (Some (<[key := value]> h))
       | _ => mk_MapDatabase (sync.mk_Mutex false) (Some h)
       end)
      (<[j := match gj with
              | SetAtAssign _ _ => SetAtReturn
              | SetAtPanic msg => SetPanicked msg
              | _ => SetReturned None
              end]> gs)), j.
    simpl. rewrite Hj. simpl.
    destruct gj; simpl in *; try discriminate; reflexivity.
  - destruct g; simpl in Hg; try discriminate;
      try (pose proof (holder_counted gs i _ Hi eq_refl); lia).
    + eexists. exists i. unfold step_at. simpl. rewrite Hi. reflexivity.
    + destruct (MapDatabase_Get (mk_MapDatabase (sync.mk_Mutex false) (Some h)) key)
        as [v err] eqn:HGet.
      eexists. exists i. unfold step_at. simpl. rewrite Hi. simpl.
      rewrite HGet. reflexivity.
Qed.

Lemma Set_calls_never_deadlock_example :
  initial (mk_system NewMapDatabase [SetAtLock "a" "1"; SetAtLock "b" "2"]) /\
  Forall (fun g => is_Set_call g = true) [SetAtLock "a" "1"; SetAtLock "b" "2"] /\
  rtc step (mk_system NewMapDatabase [SetAtLock "a" "1"; SetAtLock "b" "2"])
    (mk_system (mk_MapDatabase (sync.mk_Mutex true) (Some ∅))
       [SetAtAssign "a" "1"; SetAtLock "b" "2"]) /\
  (Forall (fun g => finished g = true) [SetAtAssign "a" "1"; SetAtLock "b" "2"] \/
   exists σ',
     step (mk_system (mk_MapDatabase (sync.mk_Mutex true) (Some ∅))
             [SetAtAssign "a" "1"; SetAtLock "b" "2"]) σ').
Proof.
  assert (Hinit : initial (mk_system NewMapDatabase
                             [SetAtLock "a" "1"; SetAtLock "b" "2"]))
    by (split; [reflexivity | repeat constructor]).
  assert (HSets : Forall (fun g => is_Set_call g = true)
                    [SetAtLock "a" "1"; SetAtLock "b" "2"])
    by (repeat constructor).
  assert (Hsteps : rtc step
            (mk_system NewMapDatabase [SetAtLock "a" "1"; SetAtLock "b" "2"])
            (mk_system (mk_MapDatabase (sync.mk_Mutex true) (Some ∅))
               [SetAtAssign "a" "1"; SetAtLock "b" "2"]))
    by (eapply rtc_l; [exists 0; reflexivity | apply rtc_refl]).
  split; [exact Hinit |]. split; [exact HSets |]. split; [exact Hsteps |].
  exact (Set_calls_never_deadlock _ _ Hinit HSets Hsteps).
Defined.

Lemma steps_left_all_cons g gs :
  steps_left_all (g :: gs) = steps_left g + steps_left_all gs.
Proof. reflexivity. Qed.

Lemma steps_left_insert gs i g g' :
  gs !! i = Some g ->
  steps_left_all (<[i := g']> gs) + steps_left g
  = steps_left_all gs + steps_left g'.
Proof.
  revert i. induction gs as [| g0 gs IH]; intros [| i] Hi; simpl in *;
    try discriminate.
  - injection Hi as ->. rewrite !steps_left_all_cons. lia.
  - rewrite !steps_left_all_cons. specialize (IH i Hi). lia.
Qed.

Lemma step_goroutine_steps_left (db db' : MapDatabase) g g' :
  step_goroutine db g = Some (db', g') -> steps_left g = S (steps_left g').
Proof.
  destruct g; simpl; try discriminate.
  - destruct (sync.Lock _); simpl; [| discriminate]. intros [= _ <-]. reflexivity.
  - destruct (map_assign _ _ _); intros [= _ <-]; reflexivity.
  - destruct (sync.Unlock _); simpl; [| discriminate]. intros [= _ <-]. reflexivity.
  - destruct (sync.Unlock _); simpl; [| discriminate]. intros [= _ <-]. reflexivity.
  - destruct (MapDatabase_Get _ _). intros [= _ <-]. reflexivity.
Qed.

Lemma step_steps_left σ σ' :
  step σ σ' -> steps_left_all (running σ) = S (steps_left_all (running σ')).
Proof.
  intros [i Hstep]. unfold step_at in Hstep.
  destruct (running σ !! i) as [g |] eqn:Hi; simpl in Hstep; [| discriminate].
  destruct (step_goroutine (store σ) g) as [[db g'] |] eqn:Hg; simpl in Hstep;
    [| discriminate].
  injection Hstep as <-. simpl.
  pose proof (steps_left_insert _ i g g' Hi).
  pose proof (step_goroutine_steps_left _ _ _ _ Hg). lia.
Qed.

Lemma no_steps_left_finished gs :
  steps_left_all gs = 0 -> Forall (fun g => finished g = true) gs.
Proof.
  induction gs as [| g gs IH]; [constructor |].
  rewrite steps_left_all_cons. intros Hz. constructor.
  - destruct g; simpl in *; try reflexivity; lia.
  - apply IH. lia.
Qed.

Lemma steps_left_all_bound gs : steps_left_all gs <= 3 * length gs.
Proof.
  induction gs as [| g gs IH]; [reflexivity |].
  rewrite steps_left_all_cons. simpl length.
  assert (steps_left g <= 3) by (destruct g; simpl; lia). lia.
Qed.

(** Every step of an execution is one step of one call: an execution of [n]
    steps lowers the number of steps the calls have left by [n], so none is
    longer than that number (three steps for a [Set] and one for a [Get] that
    have not begun), and when [n] reaches it every call has ended. *)
Theorem executions_are_finite (n : nat) σ σ' :
  nsteps step n σ σ' ->
  steps_left_all (running σ') + n = steps_left_all (running σ) /\
  n <= 3 * length (running σ) /\
  (n = steps_left_all (running σ) ->
   Forall (fun g => finished g = true) (running σ')).
Proof.
  intros Hn.
  assert (Hsum : steps_left_all (running σ') + n = steps_left_all (running σ)).
  { induction Hn as [| n σ1 σ2 σ3 Hstep _ IH]; [lia |].
    pose proof (step_steps_left _ _ Hstep). lia. }
  split; [exact Hsum |]. split.
  - pose proof (steps_left_all_bound (running σ)). lia.
  - intros Heq. apply no_steps_left_finished. lia.
Qed.

Lemma executions_are_finite_example :
  nsteps step 3 (mk_system NewMapDatabase [SetAtLock "a" "1"])
    (mk_system (mk_MapDatabase sync.zeroMutex (Some (<["a" := "1"]> ∅)))
       [SetReturned None]) /\
  steps_left_all [SetReturned None] + 3 = steps_left_all [SetAtLock "a" "1"] /\
  3 <= 3 * length [SetAtLock "a" "1"] /\
  (3 = steps_left_all [SetAtLock "a" "1"] ->
   Forall (fun g => finished g = true) [SetReturned None]).
Proof.
  assert (Hn : nsteps step 3 (mk_system NewMapDatabase [SetAtLock "a" "1"])
                 (mk_system (mk_MapDatabase sync.zeroMutex (Some (<["a" := "1"]> ∅)))
                    [SetReturned None])).
  { eapply nsteps_l; [exists 0; reflexivity |].
    eapply nsteps_l; [exists 0; reflexivity |].
    eapply nsteps_l; [exists 0; reflexivity |].
    apply nsteps_O. }
  split; [exact Hn |].
  exact (executions_are_finite 3 _ _ Hn).
Defined.

Lemma pending_cons g gs :
  pending (g :: gs) = option_list (to_assign g) ++ pending gs.
Proof. unfold pending. simpl. destruct (to_assign g); reflexivity. Qed.

Lemma pending_insert gs i g g' :
  gs !! i = Some g ->
  option_list (to_assign g) ++ pending (<[i := g']> gs)
  ≡ₚ option_list (to_assign g') ++ pending gs.
Proof.
  revert i. induction gs as [| g0 gs IH]; intros [| i] Hi; simpl in Hi;
    try discriminate.
  - injection Hi as ->. change (<[0 := g']> (g :: gs)) with (g' :: gs).
    rewrite !pending_cons. apply Permutation_app_swap_app.
  - change (<[S i := g']> (g0 :: gs)) with (g0 :: <[i := g']> gs).
    rewrite !pending_cons.
    rewrite (Permutation_app_swap_app (option_list (to_assign g))).
    rewrite (Permutation_app_swap_app (option_list (to_assign g'))).
    apply Permutation_app; [reflexivity | apply IH, Hi].
Qed.

Lemma pending_finished gs :
  Forall (fun g => finished g = true) gs -> pending gs = [].
Proof.
  induction 1 as [| g gs Hg _ IH]; [reflexivity |].
  rewrite pending_cons, IH. destruct g; simpl in *; try discriminate; reflexivity.
Qed.

Lemma holders_finished gs :
  Forall (fun g => finished g = true) gs -> holders gs = 0.
Proof.
  induction 1 as [| g gs Hg _ IH]; [reflexivity |].
  rewrite holders_cons, IH. unfold weight.
  destruct g; simpl in *; try discriminate; reflexivity.
Qed.

Lemma assign_all_snoc (h : gmap string string) kvs (key value : string) :
  assign_all h (kvs ++ [(key, value)]) = <[key := value]> (assign_all h kvs).
Proof. unfold assign_all. rewrite foldl_app. reflexivity. Qed.

Lemma run_Set_calls kvs (h : gmap string string) :
  run (Set_calls kvs) (mk_MapDatabase sync.zeroMutex (Some h))
  = Returns (mk_MapDatabase sync.zeroMutex (Some (assign_all h kvs))).
Proof.
  revert h. induction kvs as [| [key value] kvs IH]; intros h; [reflexivity |].
  simpl. apply IH.
Qed.

(** The assignments made so far, in the order they were made, give the map;
    with the ones still to make they are the ones asked for at the start. *)
Lemma step_history σ σ' (h0 : gmap string string) (asked : list (string * string)) :
  step σ σ' ->
  (exists made, hashtable (store σ) = Some (assign_all h0 made) /\
                made ++ pending (running σ) ≡ₚ asked) ->
  exists made, hashtable (store σ') = Some (assign_all h0 made) /\
               made ++ pending (running σ') ≡ₚ asked.
Proof.
  intros [i Hstep] (made & Hmap & Hperm). unfold step_at in Hstep.
  destruct (running σ !! i) as [g |] eqn:Hi; simpl in Hstep; [| discriminate].
  destruct (step_goroutine (store σ) g) as [[db g'] |] eqn:Hg; simpl in Hstep;
    [| discriminate].
  injection Hstep as <-. simpl.
  pose proof (pending_insert _ i g g' Hi) as Hins.
  destruct σ as [[mu m] gs]. simpl in *. subst m.
  destruct g; simpl in Hg; try discriminate.
  - destruct (sync.Lock mu); simpl in Hg; [| discriminate].
    injection Hg as <- <-. simpl in *. exists made. split; [reflexivity |].
    apply Permutation_cons_inv in Hins. rewrite Hins. exact Hperm.
  - injection Hg as <- <-. simpl in *.
    exists (made ++ [(key, value)]). split; [rewrite assign_all_snoc; reflexivity |].
    rewrite <- app_assoc. simpl. rewrite Hins. exact Hperm.
  - destruct (sync.Unlock mu); simpl in Hg; [| discriminate].
    injection Hg as <- <-. simpl in *. exists made. split; [reflexivity |].
    rewrite Hins. exact Hperm.
  - destruct (sync.Unlock mu); simpl in Hg; [| discriminate].
    injection Hg as <- <-. simpl in *. exists made. split; [reflexivity |].
    rewrite Hins. exact Hperm.
  - destruct (MapDatabase_Get _ _). injection Hg as <- <-. simpl in *.
    exists made. split; [reflexivity |]. rewrite Hins. exact Hperm.
Qed.

Lemma steps_history σ σ' (h0 : gmap string string) (asked : list (string * string)) :
  rtc step σ σ' ->
  (exists made, hashtable (store σ) = Some (assign_all h0 made) /\
                made ++ pending (running σ) ≡ₚ asked) ->
  exists made, hashtable (store σ') = Some (assign_all h0 made) /\
               made ++ pending (running σ') ≡ₚ asked.
Proof.
  induction 1 as [| σ1 σ2 σ3 Hstep _ IH]; intros Hinv; [exact Hinv |].
  apply IH. eapply step_history; [exact Hstep | exact Hinv].
Qed.

(** When every goroutine has ended, the store is the map the assignments
    give, made in some order, behind a free mutex. *)
Lemma final_store σ0 σ (h0 : gmap string string) :
  initial σ0 ->
  hashtable (store σ0) = Some h0 ->
  rtc step σ0 σ ->
  Forall (fun g => finished g = true) (running σ) ->
  exists made,
    made ≡ₚ pending (running σ0) /\
    store σ = mk_MapDatabase sync.zeroMutex (Some (assign_all h0 made)).
Proof.
  intros Hinit Hh0 Hsteps Hall.
  destruct (reachable_mutex_inv _ _ Hinit Hsteps) as (Hcount & _ & _).
  rewrite (holders_finished _ Hall) in Hcount.
  destruct (steps_history σ0 σ h0 (pending (running σ0)) Hsteps)
    as (made & Hmap & Hperm).
  { exists []. split; [exact Hh0 | reflexivity]. }
  rewrite (pending_finished _ Hall), app_nil_r in Hperm.
  exists made. split; [exact Hperm |].
  destruct σ as [[[l] m] gs]. simpl in *. subst m.
  destruct l; [discriminate | reflexivity].
Qed.

(** Calls of [Set] that run at the same time leave the store that the same
    calls leave when made one after the other in some order: from a ready
    store and goroutines that all run [Set], once every goroutine has ended
    the store is the result of [run] on a permutation of the calls. *)
Theorem concurrent_Sets_serialise σ0 σ :
  initial σ0 ->
  Forall (fun g => is_Set_call g = true) (running σ0) ->
  rtc step σ0 σ ->
  Forall (fun g => finished g = true) (running σ) ->
  exists kvs,
    kvs ≡ₚ pending (running σ0) /\
    run (Set_calls kvs) (store σ0) = Returns (store σ).
Proof.
  intros Hinit _ Hsteps Hall.
  destruct (initialised_inv _ (proj1 Hinit)) as (h0 & Hdb0).
  destruct (final_store σ0 σ h0 Hinit) as (made & Hperm & Hstore);
    [rewrite Hdb0; reflexivity | exact Hsteps | exact Hall |].
  exists made. split; [exact Hperm |].
  rewrite Hdb0, Hstore. apply run_Set_calls.
Qed.

Lemma concurrent_Sets_serialise_example :
  initial (mk_system NewMapDatabase [SetAtLock "a" "1"; SetAtLock "b" "2"]) /\
  Forall (fun g => is_Set_call g = true) [SetAtLock "a" "1"; SetAtLock "b" "2"] /\
  rtc step (mk_system NewMapDatabase [SetAtLock "a" "1"; SetAtLock "b" "2"])
    (mk_system
       (mk_MapDatabase sync.zeroMutex (Some (<["a" := "1"]> (<["b" := "2"]> ∅))))
       [SetReturned None; SetReturned None]) /\
  Forall (fun g => finished g = true) [SetReturned None; SetReturned None] /\
  exists kvs,
    kvs ≡ₚ pending [SetAtLock "a" "1"; SetAtLock "b" "2"] /\
    run (Set_calls kvs) NewMapDatabase
    = Returns (mk_MapDatabase sync.zeroMutex
                 (Some (<["a" := "1"]> (<["b" := "2"]> ∅)))).
Proof.
  assert (Hinit : initial (mk_system NewMapDatabase
                             [SetAtLock "a" "1"; SetAtLock "b" "2"]))
    by (split; [reflexivity | repeat constructor]).
  assert (HSets : Forall (fun g => is_Set_call g = true)
                    [SetAtLock "a" "1"; SetAtLock "b" "2"])
    by (repeat constructor).
  assert (Hsteps : rtc step
            (mk_system NewMapDatabase [SetAtLock "a" "1"; SetAtLock "b" "2"])
            (mk_system
               (mk_MapDatabase sync.zeroMutex
                  (Some (<["a" := "1"]> (<["b" := "2"]> ∅))))
               [SetReturned None; SetReturned None])).
  { eapply rtc_l; [exists 1; reflexivity |].
    eapply rtc_l; [exists 1; reflexivity |].
    eapply rtc_l; [exists 1; reflexivity |].
    eapply rtc_l; [exists 0; reflexivity |].
    eapply rtc_l; [exists 0; reflexivity |].
    eapply rtc_l; [exists 0; reflexivity |].
    apply rtc_refl. }
  assert (Hall : Forall (fun g => finished g = true)
                   [SetReturned None; SetReturned None])
    by (repeat constructor).
  split; [exact Hinit |]. split; [exact HSets |]. split; [exact Hsteps |].
  split; [exact Hall |].
  exact (concurrent_Sets_serialise _ _ Hinit HSets Hsteps Hall).
Defined.

Lemma assign_all_cons (h : gmap string string) (kv : string * string) kvs :
  assign_all h (kv :: kvs) = assign_all (<[fst kv := snd kv]> h) kvs.
Proof. reflexivity. Qed.

Lemma assign_all_other (h : gmap string string) kvs (key : string) :
  key ∉ fst <$> kvs -> assign_all h kvs !! key = h !! key.
Proof.
  revert h. induction kvs as [| kv kvs IH]; intros h Hnotin; [reflexivity |].
  rewrite fmap_cons, not_elem_of_cons in Hnotin. destruct Hnotin as [Hne Hnotin].
  rewrite assign_all_cons, (IH _ Hnotin).
  apply lookup_insert_ne. congruence.
Qed.

Lemma assign_all_lookup (h : gmap string string) kvs (key value : string) :
  NoDup (fst <$> kvs) ->
  (key, value) ∈ kvs ->
  assign_all h kvs !! key = Some value.
Proof.
  revert h. induction kvs as [| kv kvs IH]; intros h Hnodup Hin.
  - apply elem_of_nil in Hin. contradiction.
  - rewrite fmap_cons, NoDup_cons in Hnodup. destruct Hnodup as [Hfresh Hnodup].
    rewrite assign_all_cons. apply elem_of_cons in Hin as [<- | Hin].
    + rewrite (assign_all_other _ _ _ Hfresh). apply lookup_insert_eq.
    + apply IH; assumption.
Qed.

(** No update is lost: when calls of [Set] on keys that are all different run
    at the same time on a ready store, then once every goroutine has ended
    [Get] returns, for each of the keys, the value its call set, with a [nil]
    error. *)
Theorem concurrent_Sets_all_kept σ0 σ (key value : string) :
  initial σ0 ->
  Forall (fun g => is_Set_call g = true) (running σ0) ->
  NoDup (fst <$> pending (running σ0)) ->
  rtc step σ0 σ ->
  Forall (fun g => finished g = true) (running σ) ->
  (key, value) ∈ pending (running σ0) ->
  MapDatabase_Get (store σ) key = (value, None).
Proof.
  intros Hinit _ Hnodup Hsteps Hall Hin.
  destruct (initialised_inv _ (proj1 Hinit)) as (h0 & Hdb0).
  destruct (final_store σ0 σ h0 Hinit) as (made & Hperm & Hstore);
    [rewrite Hdb0; reflexivity | exact Hsteps | exact Hall |].
  rewrite <- Hperm in Hnodup, Hin.
  rewrite Hstore, Get_lookup_key. unfold lookup_key. simpl.
  rewrite (assign_all_lookup h0 made key value Hnodup Hin). reflexivity.
Qed.

Lemma concurrent_Sets_all_kept_example :
  initial (mk_system NewMapDatabase [SetAtLock "a" "1"; SetAtLock "b" "2"]) /\
  Forall (fun g => is_Set_call g = true) [SetAtLock "a" "1"; SetAtLock "b" "2"] /\
  NoDup (fst <$> pending [SetAtLock "a" "1"; SetAtLock "b" "2"]) /\
  rtc step (mk_system NewMapDatabase [SetAtLock "a" "1"; SetAtLock "b" "2"])
    (mk_system
       (mk_MapDatabase sync.zeroMutex (Some (<["a" := "1"]> (<["b" := "2"]> ∅))))
       [SetReturned None; SetReturned None]) /\
  Forall (fun g => finished g = true) [SetReturned None; SetReturned None] /\
  ("b", "2") ∈ pending [SetAtLock "a" "1"; SetAtLock "b" "2"] /\
  MapDatabase_Get
    (mk_MapDatabase sync.zeroMutex (Some (<["a" := "1"]> (<["b" := "2"]> ∅)))) "b"
  = ("2", None).
Proof.
  assert (Hinit : initial (mk_system NewMapDatabase
                             [SetAtLock "a" "1"; SetAtLock "b" "2"]))
    by (split; [reflexivity | repeat constructor]).
  assert (HSets : Forall (fun g => is_Set_call g = true)
                    [SetAtLock "a" "1"; SetAtLock "b" "2"])
    by (repeat constructor).
  assert (Hnodup : NoDup (fst <$> pending [SetAtLock "a" "1"; SetAtLock "b" "2"])).
  { apply NoDup_cons. split; [| apply NoDup_singleton].
    intros Hin. apply list_elem_of_singleton in Hin. discriminate. }
  assert (Hsteps : rtc step
            (mk_system NewMapDatabase [SetAtLock "a" "1"; SetAtLock "b" "2"])
            (mk_system
               (mk_MapDatabase sync.zeroMutex
                  (Some (<["a" := "1"]> (<["b" := "2"]> ∅))))
               [SetReturned None; SetReturned None])).
  { eapply rtc_l; [exists 1; reflexivity |].
    eapply rtc_l; [exists 1; reflexivity |].
    eapply rtc_l; [exists 1; reflexivity |].
    eapply rtc_l; [exists 0; reflexivity |].
    eapply rtc_l; [exists 0; reflexivity |].
    eapply rtc_l; [exists 0; reflexivity |].
    apply rtc_refl. }
  assert (Hall : Forall (fun g => finished g = true)
                   [SetReturned None; SetReturned None])
    by (repeat constructor).
  assert (Hin : ("b", "2") ∈ pending [SetAtLock "a" "1"; SetAtLock "b" "2"])
    by (apply list_elem_of_further, list_elem_of_here).
  split; [exact Hinit |]. split; [exact HSets |]. split; [exact Hnodup |].
  split; [exact Hsteps |]. split; [exact Hall |]. split; [exact Hin |].
  exact (concurrent_Sets_all_kept _ _ "b" "2" Hinit HSets Hnodup Hsteps Hall Hin).
Defined.

End schedules.

(** * The store in memory *)

Section memory_model.

Implicit Types (mem : memory.memory) (p : memory.ref) (db : MapDatabase)
  (key value : string).

(** What [view] says of the memory behind a pointer. *)
Lemma view_inv mem p db :
  memory.view mem p = Some db ->
  exists s,
    memory.structs mem !! p = Some s /\
    memory.hashtableMutex s = hashtableMutex db /\
    memory.map_at mem (memory.hashtable s) = hashtable db /\
    (forall r, memory.hashtable s = Some r -> is_Some (memory.maps mem !! r)).
Proof.
  unfold memory.view. destruct (memory.structs mem !! p) as [s |]; [| discriminate].
  destruct s as [mu [r |]]; simpl.
  - destruct (memory.maps mem !! r) as [h |] eqn:Hr; [| discriminate].
    intros [= <-]. eexists. split; [reflexivity |]. simpl.
    split; [reflexivity |]. split; [exact Hr |].
    intros r' [= <-]. rewrite Hr. eexists. reflexivity.
  - intros [= <-]. eexists. split; [reflexivity |]. simpl.
    split; [reflexivity |]. split; [reflexivity |]. intros r' Hr'. discriminate.
Qed.

(** [Set] in memory does what [MapDatabase_Set] says: it leaves a memory in
    which the store behind the pointer is the one [MapDatabase_Set] returns. *)
Lemma Set_in_memory mem p db key value err db' :
  memory.view mem p = Some db ->
  MapDatabase_Set db key value = Returns (err, db') ->
  exists mem',
    memory.MapDatabase_Set p key value mem = Returns (err, mem') /\
    memory.view mem' p = Some db'.
Proof.
  intros Hview HSet.
  unfold memory.view in Hview.
  destruct (memory.structs mem !! p) as [[[l] m] |] eqn:Hp; [| discriminate].
  simpl in Hview.
  destruct m as [r |]; [destruct (memory.maps mem !! r) as [h |] eqn:Hr |];
    try discriminate; injection Hview as <-;
    unfold MapDatabase_Set in HSet; simpl in HSet; destruct l; try discriminate.
  injection HSet as <- <-.
  eexists. split.
  - unfold memory.MapDatabase_Set, memory.deferring, memory.Mutex_Lock,
      memory.Mutex_Unlock, memory.load, memory.map_assign, mbind,
      memory.Go_bind, mret, memory.Go_ret.
    simpl. rewrite Hp. simpl. rewrite lookup_insert_eq. simpl.
    rewrite Hr. simpl. rewrite lookup_insert_eq. simpl. reflexivity.
  - unfold memory.view. simpl. rewrite lookup_insert_eq. simpl.
    rewrite lookup_insert_eq. reflexivity.
Qed.

(** C8. [Get] is a pure read. Called on the pointer the handlers hold, it
    leaves the whole memory as it found it (the struct with its mutex, the
    map, and everything else) and returns what [MapDatabase_Get] returns on
    the store behind the pointer, whether the mutex is held or not; for a key
    that has no association the result is the error and the memory is still
    the same. The same holds of [Get] on any copy of a struct. *)
Theorem Get_only_reads_memory mem p db key :
  memory.view mem p = Some db ->
  memory.Database_Get p key mem = Returns (MapDatabase_Get db key, mem) /\
  (lookup_key db key = None ->
   memory.Database_Get p key mem
   = Returns (("", Some (errors.New "this value doesn't exist")), mem)) /\
  (forall copy : memory.MapDatabase,
     memory.MapDatabase_Get copy key mem
     = Returns (MapDatabase_Get
                  (mk_MapDatabase (memory.hashtableMutex copy)
                     (memory.map_at mem (memory.hashtable copy))) key,
                mem)).
Proof.
  intros Hview.
  assert (Hcopy : forall copy : memory.MapDatabase,
            memory.MapDatabase_Get copy key mem
            = Returns (MapDatabase_Get
                         (mk_MapDatabase (memory.hashtableMutex copy)
                            (memory.map_at mem (memory.hashtable copy))) key,
                       mem)).
  { intros copy.
    unfold memory.MapDatabase_Get, memory.map_index, MapDatabase_Get, mbind,
      memory.Go_bind, mret, memory.Go_ret. simpl.
    destruct (map_index (memory.map_at mem (memory.hashtable copy)) key)
      as [v [|]]; reflexivity. }
  assert (Hcall : memory.Database_Get p key mem
                  = Returns (MapDatabase_Get db key, mem)).
  { destruct (view_inv mem p db Hview) as (s & Hp & Hmu & Hmap & _).
    unfold memory.Database_Get, memory.load, mbind, memory.Go_bind at 1.
    rewrite Hp. rewrite (Hcopy s), Hmu, Hmap. destruct db; reflexivity. }
  split; [exact Hcall |]. split; [| exact Hcopy].
  intros Hk. rewrite Hcall, Get_lookup_key, Hk. reflexivity.
Qed.

Lemma Get_only_reads_memory_example :
  memory.view
    (memory.mk_memory
       {[1%positive := memory.mk_MapDatabase (sync.mk_Mutex true) (Some 1%positive)]}
       {[1%positive := {["foo" := "bar"]}]})
    1%positive
  = Some (mk_MapDatabase (sync.mk_Mutex true) (Some {["foo" := "bar"]})) /\
  memory.Database_Get 1%positive "baz"
    (memory.mk_memory
       {[1%positive := memory.mk_MapDatabase (sync.mk_Mutex true) (Some 1%positive)]}
       {[1%positive := {["foo" := "bar"]}]})
  = Returns (MapDatabase_Get
               (mk_MapDatabase (sync.mk_Mutex true) (Some {["foo" := "bar"]})) "baz",
             memory.mk_memory
               {[1%positive := memory.mk_MapDatabase (sync.mk_Mutex true)
                                 (Some 1%positive)]}
               {[1%positive := {["foo" := "bar"]}]}).
Proof.
  assert (Hview : memory.view
            (memory.mk_memory
               {[1%positive := memory.mk_MapDatabase (sync.mk_Mutex true)
                                 (Some 1%positive)]}
               {[1%positive := {["foo" := "bar"]}]})
            1%positive
          = Some (mk_MapDatabase (sync.mk_Mutex true) (Some {["foo" := "bar"]})))
    by reflexivity.
  split; [exact Hview |].
  exact (proj1 (Get_only_reads_memory _ _ _ "baz" Hview)).
Defined.

(** The store [main] makes, in memory: behind the pointer it hands to
    [listen] is the store [NewMapDatabase] describes. *)
Lemma main_store_view :
  exists p mem,
    memory.main_store memory.empty = Returns (p, mem) /\
    memory.view mem p = Some NewMapDatabase.
Proof. eexists. eexists. split; [reflexivity |]. vm_compute. reflexivity. Qed.

End memory_model.
